(** * merc: supervised execution of an external tool

    A shallow embedding of [merc/run_process.py] (the streaming
    [RunProcess]) and of the older [run_process.py] kept next to it.

    The operating system, [subprocess], [psutil] and the clock are the
    environment of the program.  One execution is described by a [world]: what
    [Popen] does, the text the child writes, what the successive
    [memory_info()] calls return, the process tree found when a kill is
    decided, the processes that exit by themselves during the kill, the exit
    status and the clock.  The two threads of an execution share only the
    process handle, so their interleaving is fixed by these observations.
    A world describes an execution that comes to an end: the list of rounds
    is finite.

    Python floats are idealised as exact rationals ([Q]); Python ints are
    [Z].  The total that the watchdog accumulates is therefore a multiple of
    a tenth where the program holds its binary64 sum.  Where a statement
    needs the rounds to go on, the time ceiling is met with an interval to
    spare, and the rounds of the test scenario are counted in binary64 as
    well ([accumulated_binary64]). *)

From Stdlib Require Import ZArith QArith Qminmax String Ascii List Sorted Bool Lia Lqa.
From Stdlib Require Import Floats.
Import ListNotations.
Open Scope Z_scope.

Set Implicit Arguments.
Set Warnings "-register-all".

(** ** Numbers *)

(** [sys.maxsize], the default of both ceilings. *)
Definition sys_maxsize : Z := 2 ^ 63 - 1.

(** Python's [a > b] on numbers. *)
Definition py_gt (a b : Q) : bool := negb (Qle_bool a b).

(** Python's [max(a, b)]: the first argument unless the second is larger. *)
Definition py_max (a b : Q) : Q := if py_gt b a then b else a.

(** The polling interval of the watchdog, [0.1] seconds. *)
Definition interval : Q := 1 # 10.

(** [rss / 1024 / 1024]: bytes to MB, true division. *)
Definition rss_mb (rss : Z) : Q := inject_Z rss / 1024 / 1024.

(** ** Exceptions *)

Inductive exn : Type :=
| FileNotFoundError
| PermissionError
| OSError
| AssertionError
| NoSuchProcess
| TimeExceededError (name : string) (value : Q) (max_time : Z)
| MemoryExceededError (name : string) (value : Q) (max_memory : Z)
| ToolNotFoundError (name : string)
(* the message interpolates the tool, the arguments and the return code *)
| ToolRuntimeError (tool : string) (arguments : list string) (returncode : Z)
(* any other exception class, by name *)
| OtherError (cls : string).

(** ** The process tree and [kill_all] *)

(** The processes found under the root, as [psutil] sees them when the kill
    is decided. *)
Inductive ptree : Type :=
| PNode (pid : Z) (kids : list ptree).

Definition root_pid (t : ptree) : Z := match t with PNode p _ => p end.

Fixpoint pids (t : ptree) : list Z :=
  match t with PNode p ks => p :: flat_map pids ks end.

(** The listing of [process.children(recursive=True)] below a node, in the
    order of [psutil]'s traversal: the node taken from the stack has its
    children appended to the result and pushed, so the children of a node
    come before its grandchildren and the subtree of the last child is
    walked first. *)
Fixpoint below (t : ptree) : list Z :=
  match t with
  | PNode _ ks =>
      map root_pid ks ++ fold_left (fun acc k => below k ++ acc) ks []
  end.

(** [process.children(recursive=True)] for a root that is still there:
    every transitive descendant, the root excluded. *)
Definition children_recursive (t : ptree) : list Z := below t.

(** What the kernel knows of the processes: those that were sent SIGKILL
    (latest first) and those that no longer exist. *)
Record ptable : Type := mkTable {
  signalled : list Z;
  exited : list Z
}.

Definition no_procs : ptable := mkTable [] [].

Definition mem (p : Z) (l : list Z) : bool := existsb (Z.eqb p) l.

Inductive status : Type := Running | Dying | Gone.

Definition status_of (tb : ptable) (p : Z) : status :=
  if mem p (exited tb) then Gone
  else if mem p (signalled tb) then Dying
  else Running.

(** Processes that finish on their own. *)
Definition vanish (ps : list Z) (tb : ptable) : ptable :=
  mkTable (signalled tb) (ps ++ exited tb).

(** [p.kill()]: SIGKILL, or [NoSuchProcess] when [p] is gone. *)
Definition kill (p : Z) (tb : ptable) : ptable + exn :=
  if mem p (exited tb) then inr NoSuchProcess
  else inl (mkTable (p :: signalled tb) (exited tb)).

(** The loop of [kill_all]:
    [for p in children: try: p.kill() except psutil.NoSuchProcess: pass].
    [races] lists, for each iteration, the processes that exit by themselves
    just before the call of [kill]. *)
Fixpoint kill_each (children : list Z) (races : list (list Z)) (tb : ptable)
  : ptable + exn :=
  match children with
  | [] => inl tb
  | p :: rest =>
      let tb := vanish (hd [] races) tb in
      match kill p tb with
      | inl tb' => kill_each rest (tl races) tb'
      | inr NoSuchProcess => kill_each rest (tl races) tb
      | inr e => inr e
      end
  end.

(** [psutil.wait_procs(procs)] without a timeout: returns once every process
    of [procs] is gone, with the pair [(gone, alive)].  A process that was
    sent SIGKILL dies; one that still runs untouched may run for ever, and
    then the call does not return ([None]). *)
Definition wait_procs (procs : list Z) (tb : ptable)
  : option (ptable * (list Z * list Z)) :=
  if existsb (fun p => match status_of tb p with Running => true | _ => false end) procs
  then None
  else
    let tb' := mkTable (signalled tb) (procs ++ exited tb) in
    let alive := filter (fun p => negb (mem p (exited tb'))) procs in
    let gone := filter (fun p => mem p (exited tb')) procs in
    Some (tb', (gone, alive)).

Inductive kill_result : Type :=
| KillReturned (tb : ptable)
| KillRaised (e : exn)
| KillBlocked.

(** [kill_all(process)].  The head of [races] lists the processes that
    have left when the function is entered, its tail those that leave before
    each call of [kill].  [process.children(recursive=True)] stands outside
    the [try] of the loop and raises [NoSuchProcess] for a root that is
    gone. *)
Definition kill_all (process : ptree) (races : list (list Z)) (tb : ptable)
  : kill_result :=
  let tb := vanish (hd [] races) tb in
  if mem (root_pid process) (exited tb) then KillRaised NoSuchProcess
  else
    let children := children_recursive process in
    let children := children ++ [root_pid process] in
    match kill_each children (tl races) tb with
    | inr e => KillRaised e
    | inl tb1 =>
        match wait_procs children tb1 with
        | None => KillBlocked
        | Some (tb2, (_, alive)) =>
            match alive with
            | [] => KillReturned tb2
            | _ :: _ => KillRaised AssertionError
            end
        end
    end.

(** ** The object under construction *)

(** A [RunProcess] instance: the three class attributes and the two fields
    behind the [user_time] and [max_memory] properties. *)
Record RunProcess : Type := mkRunProcess {
  stdout : string;
  stderr : string;
  returncode : Z;
  _user_time : Q;
  _max_memory_used : Q
}.

(** The attributes as the class body gives them. *)
Definition class_defaults : RunProcess := mkRunProcess "" "" (-1) 0 0.

Definition set_user_time (v : Q) (o : RunProcess) : RunProcess :=
  mkRunProcess (stdout o) (stderr o) (returncode o) v (_max_memory_used o).

Definition set_max_memory_used (v : Q) (o : RunProcess) : RunProcess :=
  mkRunProcess (stdout o) (stderr o) (returncode o) (_user_time o) v.

Definition set_returncode (v : Z) (o : RunProcess) : RunProcess :=
  mkRunProcess (stdout o) (stderr o) v (_user_time o) (_max_memory_used o).

Definition set_stdout (v : string) (o : RunProcess) : RunProcess :=
  mkRunProcess v (stderr o) (returncode o) (_user_time o) (_max_memory_used o).

(** The [user_time] and [max_memory] properties. *)
Definition user_time (o : RunProcess) : Q := _user_time o.
Definition max_memory (o : RunProcess) : Q := _max_memory_used o.

(** ** The environment of one execution *)

(** The file named by [tool], as the spawn finds it: absent, without
    permission to execute, runnable, in a format the system does not
    execute, or a script whose interpreter is absent. *)
Inductive tool_file : Type :=
| Missing | NotExecutable | Executable | BadFormat | NoInterpreter.

(** [subprocess.Popen]: ENOENT is [FileNotFoundError], also when it is the
    interpreter of a script that is missing; EACCES is [PermissionError];
    ENOEXEC is a plain [OSError]. *)
Definition Popen (f : tool_file) : option exn :=
  match f with
  | Missing => Some FileNotFoundError
  | NotExecutable => Some PermissionError
  | Executable => None
  | BadFormat => Some OSError
  | NoInterpreter => Some FileNotFoundError
  end.

(** [process.memory_info()]: a sample of the resident set in bytes, or
    [NoSuchProcess]. *)
Inductive mem_sample : Type :=
| Rss (rss : Z)
| ProcessGone.

(** One round of the watchdog as the environment decides it: what the sample
    is, and how long [time.sleep(0.1)] really takes if it is reached. *)
Record poll : Type := mkPoll {
  sample : mem_sample;
  slept : Q
}.

Record world : Type := mkWorld {
  (* the file behind the tool path *)
  tool_path : tool_file;
  (* the text of the merged pipe, newlines translated, up to end of file *)
  output : string;
  (* whether psutil.Process(proc.pid) finds the process *)
  pid_found : bool;
  (* the rounds made while proc.returncode is None; after the last one the
     watchdog sees the return code that proc.wait() has set *)
  polls : list poll;
  (* the process tree when a kill is decided, and the races of the kill:
     who has left when kill_all is entered, then who leaves before each
     call of kill *)
  tree : ptree;
  races : list (list Z);
  (* proc.returncode after proc.wait() *)
  exit_status : Z;
  (* the first reading of perf_counter, and the time that passes between
     the two readings outside the sleeps of the watchdog *)
  t_before : Q;
  overhead : Q
}.

(** ** The watchdog: [enforce_limits] *)

Record wstate : Type := mkW {
  self : RunProcess;
  procs : ptable;
  asleep : Q
}.

(** How the thread ends. *)
Inductive wd_end : Type :=
| LoopExit              (* proc.returncode is not None *)
| Caught                (* psutil.NoSuchProcess, swallowed *)
| Threw (e : exn)       (* the exception stored in the future *)
| Stuck.                (* never returns *)

Inductive step : Type :=
| Continue (st : wstate)
| Stop (how : wd_end) (st : wstate).

(** The run of a thread: the states at the end of each round, how the
    thread ended, and the state it left. *)
Record wd_run : Type := mkRun {
  rounds : list wstate;
  ending : wd_end;
  final : wstate
}.

Section Watchdog.
Variables (tool : string) (max_time max_memory : Z).
Variables (process : ptree) (race : list (list Z)).

(** [kill_all(process)] followed by [raise e], inside the [try] of
    [enforce_limits]. *)
Definition kill_then_raise (e : exn) (st : wstate) : step :=
  match kill_all process race (procs st) with
  | KillReturned tb => Stop (Threw e) (mkW (self st) tb (asleep st))
  | KillRaised NoSuchProcess => Stop Caught st
  | KillRaised e' => Stop (Threw e') st
  | KillBlocked => Stop Stuck st
  end.

(** The body of the [while] loop. *)
Definition tick (st : wstate) (p : poll) : step :=
  match sample p with
  | ProcessGone => Stop Caught st
  | Rss rss =>
      let peak := py_max (_max_memory_used (self st)) (rss_mb rss) in
      let st := mkW (set_max_memory_used peak (self st)) (procs st) (asleep st) in
      if py_gt (_max_memory_used (self st)) (inject_Z max_memory) then
        kill_then_raise
          (MemoryExceededError tool (_max_memory_used (self st)) max_memory) st
      else if py_gt (_user_time (self st)) (inject_Z max_time) then
        kill_then_raise
          (TimeExceededError tool (_user_time (self st)) max_time) st
      else
        Continue (mkW (set_user_time (_user_time (self st) + interval) (self st))
                      (procs st)
                      (asleep st + slept p))
  end.

(** The round as the specification words it (section 4.2, steps 1 to 4):
    the elapsed time is incremented first and compared with the ceiling
    afterwards.  Kept next to [tick] to compare the two. *)
Definition tick_increment_first (st : wstate) (p : poll) : step :=
  match sample p with
  | ProcessGone => Stop Caught st
  | Rss rss =>
      let peak := py_max (_max_memory_used (self st)) (rss_mb rss) in
      let st := mkW (set_max_memory_used peak (self st)) (procs st) (asleep st) in
      if py_gt (_max_memory_used (self st)) (inject_Z max_memory) then
        kill_then_raise
          (MemoryExceededError tool (_max_memory_used (self st)) max_memory) st
      else
        let st := mkW (set_user_time (_user_time (self st) + interval) (self st))
                      (procs st) (asleep st) in
        if py_gt (_user_time (self st)) (inject_Z max_time) then
          kill_then_raise
            (TimeExceededError tool (_user_time (self st)) max_time) st
        else
          Continue (mkW (self st) (procs st) (asleep st + slept p))
  end.

(** [while proc.returncode is None: ...]; the states are collected as they
    stand at the end of each round. *)
Fixpoint loop (st : wstate) (ps : list poll) : wd_run :=
  match ps with
  | [] => mkRun [] LoopExit st
  | p :: rest =>
      match tick st p with
      | Continue st' =>
          let r := loop st' rest in mkRun (st' :: rounds r) (ending r) (final r)
      | Stop how st' => mkRun [st'] how st'
      end
  end.

(** [enforce_limits(proc)]. *)
Definition enforce_limits (found : bool) (st : wstate) (ps : list poll)
  : wd_run :=
  if found then loop st ps else mkRun [] Caught st.
End Watchdog.

(** ** The output relay *)

Definition newline : ascii := "010"%char.

(** [for line in proc.stdout]: the text cut after each newline, the newline
    kept; a last piece without newline is a line too. *)
Fixpoint readlines_from (cur s : string) : list string :=
  match s with
  | EmptyString =>
      match cur with EmptyString => [] | _ => [cur] end
  | String c rest =>
      if Ascii.eqb c newline
      then (cur ++ String newline EmptyString)%string :: readlines_from EmptyString rest
      else readlines_from (cur ++ String c EmptyString)%string rest
  end.

Definition readlines (s : string) : list string := readlines_from EmptyString s.

(** [line.rstrip("\n")]: every trailing newline removed. *)
Fixpoint rstrip (s : string) : string :=
  match s with
  | EmptyString => EmptyString
  | String c rest =>
      match rstrip rest with
      | EmptyString => if Ascii.eqb c newline then EmptyString else String c EmptyString
      | r => String c r
      end
  end.

(** A caller's [read_stdout]: given the arguments of its earlier invocations
    and the new one, it returns, or raises. *)
Definition callback : Type := list string -> string -> option exn.

(** The relay loop, [seen] being the arguments handed over so far; the
    result is the list of all the arguments the callback received, in order,
    and the exception that ended the loop, if any. *)
Fixpoint relay (read_stdout : option callback) (seen lines : list string)
  : list string * option exn :=
  match lines with
  | [] => (seen, None)
  | line :: rest =>
      match read_stdout with
      | None => relay read_stdout seen rest
      | Some f =>
          let arg := rstrip line in
          match f seen arg with
          | Some e => (seen ++ [arg], Some e)
          | None => relay read_stdout (seen ++ [arg]) rest
          end
      end
  end.

(** ** The supervisor: [RunProcess.__init__] *)

Inductive outcome : Type :=
| Returned              (* the constructor returns the object *)
| Raised (e : exn)
| Hangs.                (* the call never comes back *)

Record execution : Type := mkExec {
  result : outcome;
  (* the instance; the caller holds it only when the constructor returned *)
  object : RunProcess;
  (* the arguments of the successive callback invocations *)
  calls : list string;
  (* the run of the watchdog thread, None when it was never submitted *)
  watchdog : option wd_run
}.

(** [except FileNotFoundError as e: raise ToolNotFoundError(tool) from e]. *)
Definition except_FileNotFoundError (tool : string) (e : exn) : exn :=
  match e with
  | FileNotFoundError => ToolNotFoundError tool
  | _ => e
  end.

(** The second reading of [time.perf_counter()], after the thread is joined. *)
Definition perf_counter_after (w : world) (slept_total : Q) : Q :=
  t_before w + overhead w + slept_total.

(** The rounds the watchdog went through, and the processes it signalled. *)
Definition ticks (x : execution) : nat :=
  match watchdog x with
  | None => O
  | Some r => List.length (rounds r)
  end.

Definition kills (x : execution) : list Z :=
  match watchdog x with
  | None => []
  | Some r => signalled (procs (final r))
  end.

(** The object once [self._user_time = 0] and [self._max_memory_used = 0]
    are executed, with no process signalled yet and no time slept. *)
Definition fresh : wstate :=
  mkW (set_max_memory_used 0 (set_user_time 0 class_defaults)) no_procs 0.

(** The thread of one execution:
    [future = executor.submit(enforce_limits, proc)]. *)
Definition thread (tool : string) (max_time max_memory : Z) (w : world)
  : wd_run :=
  enforce_limits tool max_time max_memory (tree w) (races w)
    (pid_found w) fresh (polls w).

(** [RunProcess(tool, arguments, read_stdout, env, max_time, max_memory)]
    in the world [w].  The watchdog and the relay run side by side; the
    supervisor joins the thread before it reads the clock again and looks at
    the return code.  A callback that raises takes the supervisor out of the
    executor block without [proc.wait()]: the thread is then joined with
    [proc.returncode] still [None], so it ends only on [NoSuchProcess] or on
    a limit. *)
Definition RunProcess_init (tool : string) (arguments : list string)
    (read_stdout : option callback) (env : option (list (string * string)))
    (max_time max_memory : Z) (w : world) : execution :=
  (* before = time.perf_counter() *)
  let before := t_before w in
  match Popen (tool_path w) with
  | Some e =>
      mkExec (Raised (except_FileNotFoundError tool e)) class_defaults [] None
  | None =>
      (* self._user_time = 0; self._max_memory_used = 0;
         future = executor.submit(enforce_limits, proc) *)
      let wd := thread tool max_time max_memory w in
      let me := self (final wd) in
      let r := relay read_stdout [] (readlines (output w)) in
      match snd r with
      | Some e =>
          (* the exception leaves the executor block, whose exit joins the
             thread; proc.wait() is not reached, proc.returncode stays None *)
          match ending wd with
          | LoopExit | Stuck => mkExec Hangs me (fst r) (Some wd)
          | Caught | Threw _ =>
              mkExec (Raised (except_FileNotFoundError tool e)) me (fst r) (Some wd)
          end
      | None =>
          (* proc.wait(); future.result() *)
          match ending wd with
          | Stuck => mkExec Hangs me (fst r) (Some wd)
          | Threw e =>
              mkExec (Raised (except_FileNotFoundError tool e)) me (fst r) (Some wd)
          | LoopExit | Caught =>
              let me :=
                set_user_time (perf_counter_after w (asleep (final wd)) - before) me in
              if exit_status w =? 0
              then mkExec Returned me (fst r) (Some wd)
              else mkExec
                     (Raised (except_FileNotFoundError tool
                                (ToolRuntimeError tool arguments (exit_status w))))
                     me (fst r) (Some wd)
          end
      end
  end.

(** ** The older variant, [run_process.py] *)

Module Legacy.

(** The same supervisor without callback and without clock: the output is
    collected by [proc.communicate()] and stored, with the return code, in
    the object. *)
Definition RunProcess_init (tool : string) (arguments : list string)
    (env : option (list (string * string)))
    (max_time max_memory : Z) (w : world) : execution :=
  match Popen (tool_path w) with
  | Some e =>
      mkExec (Raised (except_FileNotFoundError tool e)) class_defaults [] None
  | None =>
      let wd := thread tool max_time max_memory w in
      let me := self (final wd) in
      (* stdout, _ = proc.communicate(); future.result() *)
      match ending wd with
      | Stuck => mkExec Hangs me [] (Some wd)
      | Threw e =>
          mkExec (Raised (except_FileNotFoundError tool e)) me [] (Some wd)
      | LoopExit | Caught =>
          let me := set_stdout (output w) me in
          let me := set_returncode (exit_status w) me in
          if exit_status w =? 0
          then mkExec Returned me [] (Some wd)
          else (* print(self.stderr) *)
               mkExec
                 (Raised (except_FileNotFoundError tool
                            (ToolRuntimeError tool arguments (exit_status w))))
                 me [] (Some wd)
      end
  end.

End Legacy.

(** ** Vocabulary of the statements *)

(** A line as the child writes it: text without newline, then a newline. *)
Fixpoint newline_free (s : string) : bool :=
  match s with
  | EmptyString => true
  | String c rest => negb (Ascii.eqb c newline) && newline_free rest
  end.

Fixpoint written (ls : list string) : string :=
  match ls with
  | [] => EmptyString
  | l :: rest => (l ++ String newline (written rest))%string
  end.

(** The two running totals, compared componentwise. *)
Definition le_totals (a b : wstate) : Prop :=
  (_user_time (self a) <= _user_time (self b))%Q /\
  (_max_memory_used (self a) <= _max_memory_used (self b))%Q.

(** [time.sleep(0.1)] suspends the thread for at least 0.1 s, and
    [perf_counter] never goes backwards. *)
Definition clock_sane (w : world) : Prop :=
  Forall (fun p => interval <= slept p)%Q (polls w) /\ (0 <= overhead w)%Q.

Definition limit_error (e : exn) : Prop :=
  match e with
  | TimeExceededError _ _ _ | MemoryExceededError _ _ _ => True
  | _ => False
  end.

(** A round whose sample is read and fits under the memory ceiling. *)
Definition within_ceiling (max_memory : Z) (p : poll) : Prop :=
  match sample p with
  | Rss rss => (rss_mb rss <= inject_Z max_memory)%Q
  | ProcessGone => False
  end.

(** The total the watchdog has accumulated after [n] increments. *)
Definition accumulated (n : nat) : Q := inject_Z (Z.of_nat n) * interval.

(** The same total in binary64, as [self._user_time += 0.1] computes it;
    the literal is the double nearest to 0.1. *)
Definition accumulated_binary64 (n : nat) : float :=
  Nat.iter n (fun t => PrimFloat.add t 0x1.999999999999ap-4%float) 0%float.

(** The megabytes a round reads, 0 when the sample is missing. *)
Definition sample_mb (p : poll) : Q :=
  match sample p with
  | Rss rss => rss_mb rss
  | ProcessGone => 0
  end.

(** A text and the same text with its last line closed. *)
Fixpoint ends_with_newline (s : string) : bool :=
  match s with
  | EmptyString => false
  | String c EmptyString => Ascii.eqb c newline
  | String _ rest => ends_with_newline rest
  end.

Definition terminated (s : string) : string :=
  match s with
  | EmptyString => EmptyString
  | _ => if ends_with_newline s then s else (s ++ String newline EmptyString)%string
  end.

(** The root is still there when [kill_all] lists its descendants. *)
Definition root_alive (process : ptree) (race : list (list Z)) (tb : ptable)
  : Prop :=
  ~ In (root_pid process) (hd [] race ++ exited tb).

Definition root_present (w : world) : Prop :=
  root_alive (tree w) (races w) no_procs.

(** Every process of the tree is gone. *)
Definition tree_dead (process : ptree) (tb : ptable) : Prop :=
  forall p, In p (pids process) -> status_of tb p = Gone.

(** ** Sample executions *)

Definition quiet (rss : Z) : poll := mkPoll (Rss rss) (1 # 10).

Definition family : ptree :=
  PNode 100 [PNode 101 [PNode 103 []]; PNode 102 []].

(** A child that stays alive through twenty rounds, its grandchild leaving
    by itself while the tree is being killed. *)
Definition sleeper : world :=
  mkWorld Executable "" true (repeat (quiet 1048576) 20) family
          [[]; [103]] (-9) 5 (1 # 100).

(** A child that prints three lines and exits with status 0 after three
    rounds of the watchdog. *)
Definition printer : world :=
  mkWorld Executable (written ["0"; "1"; "2"]%string) true
          (repeat (mkPoll (Rss 2097152) (3 # 20)) 3) family [] 0 5 (1 # 100).

(** A child that is seen once by the watchdog and exits with status 0. *)
Definition brief : world :=
  mkWorld Executable "" true [quiet 0] family [] 0 5 (1 # 100).

(** A child that writes one line and then outlives a ceiling of one
    second. *)
Definition talker : world :=
  mkWorld Executable (written ["hello"]%string) true
          (repeat (quiet 1048576) 20) family [] (-9) 5 (1 # 100).

(** A child whose resident set grows from half a megabyte to three. *)
Definition hog : world :=
  mkWorld Executable "" true
          [quiet 524288; quiet 3145728; quiet 3145728] family [] (-9) 5 (1 # 100).

(** A child that prints one line and exits with status 3 after two rounds. *)
Definition crasher : world :=
  mkWorld Executable (written ["oops"]%string) true
          [quiet 1048576; quiet 1048576] family [] 3 5 (1 # 100).

(** A child that has gone before the watchdog looks for its pid. *)
Definition early : world :=
  mkWorld Executable "" false [quiet 1048576] family [] 0 5 (1 # 100).

(** A child that prints digits without any newline, as the one of
    [test_large_output] does. *)
Definition counter : world :=
  mkWorld Executable "0123456789" true [quiet 1048576] family [] 0 5 (1 # 100).

(** The same child, reaped by the supervisor between the sample that
    passes the ceiling and the listing of its descendants. *)
Definition ghost : world :=
  mkWorld Executable "" true
          [quiet 524288; quiet 3145728; quiet 3145728] family [[100]] 0 5 (1 # 100).

(** A child that outlives a ceiling of one second and is reaped just before
    the kill. *)
Definition late_leaver : world :=
  mkWorld Executable "" true (repeat (quiet 1048576) 20) family
          [[100]] 0 5 (1 # 100).

(** A tool path without file, and one whose file is not executable. *)
Definition absent : world :=
  mkWorld Missing "" true [] family [] 0 0 0.

Definition forbidden : world :=
  mkWorld NotExecutable "" true [] family [] 0 0 0.

(** A callback that fails on every line because a file of its own is
    missing. *)
Definition broken_callback : callback := fun _ _ => Some FileNotFoundError.

Definition silent_callback : callback := fun _ _ => None.

(** A callback that rejects every line. *)
Definition failing_callback : callback := fun _ _ => Some (OtherError "ValueError").

(** ** Arithmetic of the comparisons *)

Lemma py_gt_true (a b : Q) : py_gt a b = true <-> (b < a)%Q.
Proof.
  unfold py_gt. rewrite negb_true_iff, <- not_true_iff_false, Qle_bool_iff.
  split; [apply Qnot_le_lt | apply Qlt_not_le].
Qed.

Lemma py_gt_false (a b : Q) : py_gt a b = false <-> (a <= b)%Q.
Proof.
  unfold py_gt. rewrite negb_false_iff. apply Qle_bool_iff.
Qed.

Lemma py_max_l (a b : Q) : (a <= py_max a b)%Q.
Proof.
  unfold py_max. destruct (py_gt b a) eqn:E.
  - apply py_gt_true in E. lra.
  - lra.
Qed.

Lemma py_max_r (a b : Q) : (b <= py_max a b)%Q.
Proof.
  unfold py_max. destruct (py_gt b a) eqn:E.
  - lra.
  - apply py_gt_false in E. exact E.
Qed.

Lemma py_max_is_max (a b : Q) : (py_max a b == Qmax a b)%Q.
Proof.
  unfold py_max. destruct (py_gt b a) eqn:E.
  - apply py_gt_true in E. symmetry. apply Q.max_r. lra.
  - apply py_gt_false in E. symmetry. apply Q.max_l. exact E.
Qed.

(** ** [kill_all] *)

Lemma mem_In (p : Z) (l : list Z) : mem p l = true <-> In p l.
Proof.
  unfold mem. rewrite existsb_exists. split.
  - intros (q & Hq & E). apply Z.eqb_eq in E. now subst.
  - intros H. exists p. split; [exact H | apply Z.eqb_refl].
Qed.

Lemma status_Gone (tb : ptable) (p : Z) :
  status_of tb p = Gone <-> In p (exited tb).
Proof.
  unfold status_of. rewrite <- mem_In.
  destruct (mem p (exited tb)); [tauto|].
  destruct (mem p (signalled tb)); split; discriminate.
Qed.

Lemma status_Running (tb : ptable) (p : Z) :
  status_of tb p = Running <-> ~ In p (exited tb) /\ ~ In p (signalled tb).
Proof.
  unfold status_of. rewrite <- !mem_In.
  destruct (mem p (exited tb)), (mem p (signalled tb));
    intuition congruence.
Qed.

(** The loop over the children never lets an exception out, and leaves every
    child signalled or gone; nothing comes back to life, and only children
    are signalled. *)
Lemma kill_each_spec (children : list Z) :
  forall races tb, exists tb',
    kill_each children races tb = inl tb' /\
    (forall p, In p children -> In p (signalled tb') \/ In p (exited tb')) /\
    (forall p, In p (signalled tb) -> In p (signalled tb')) /\
    (forall p, In p (exited tb) -> In p (exited tb')) /\
    (forall p, In p (signalled tb') -> In p (signalled tb) \/ In p children) /\
    (forall p, In p (exited tb') -> In p (exited tb) \/ In p (concat races)).
Proof.
  induction children as [|c rest IH]; intros races tb; simpl.
  - exists tb. repeat split; simpl; intuition.
  - unfold kill. simpl.
    destruct (mem c (hd [] races ++ exited tb)) eqn:E.
    + destruct (IH (tl races) (vanish (hd [] races) tb))
        as (tb' & -> & Hall & Hs & He & Hs' & He').
      exists tb'. split; [reflexivity|]. simpl in *.
      repeat split.
      * intros p [->|Hp]; [right; apply He, mem_In, E | now apply Hall].
      * exact Hs.
      * intros p Hp. apply He, in_or_app. now right.
      * intros p Hp. destruct (Hs' p Hp); auto.
      * intros p Hp. destruct (He' p Hp) as [H|H].
        -- apply in_app_or in H as [H|H]; [right|now left].
           destruct races; simpl in *; [contradiction | apply in_or_app; now left].
        -- right. destruct races; simpl in *; [contradiction | apply in_or_app; now right].
    + destruct (IH (tl races)
                  (mkTable (c :: signalled tb) (hd [] races ++ exited tb)))
        as (tb' & -> & Hall & Hs & He & Hs' & He').
      exists tb'. split; [reflexivity|]. simpl in *.
      repeat split.
      * intros p [->|Hp]; [left; apply Hs; now left | now apply Hall].
      * intros p Hp. apply Hs. now right.
      * intros p Hp. apply He, in_or_app. now right.
      * intros p Hp. destruct (Hs' p Hp) as [[->|H]|H]; auto.
      * intros p Hp. destruct (He' p Hp) as [H|H].
        -- apply in_app_or in H as [H|H]; [right|now left].
           destruct races; simpl in *; [contradiction | apply in_or_app; now left].
        -- right. destruct races; simpl in *; [contradiction | apply in_or_app; now right].
Qed.

Lemma filter_none (A : Type) (f : A -> bool) (l : list A) :
  (forall x, In x l -> f x = false) -> filter f l = [].
Proof.
  induction l as [|a l IH]; intros H; simpl; [reflexivity|].
  rewrite (H a) by now left. apply IH. intros x Hx. apply H. now right.
Qed.

Lemma wait_procs_spec (procs : list Z) (tb : ptable) :
  (forall p, In p procs -> In p (signalled tb) \/ In p (exited tb)) ->
  exists gone,
    wait_procs procs tb =
      Some (mkTable (signalled tb) (procs ++ exited tb), (gone, [])).
Proof.
  intros H. unfold wait_procs.
  replace (existsb _ procs) with false.
  - simpl. eexists. repeat f_equal.
    apply filter_none.
    intros p Hp. apply negb_false_iff, mem_In, in_or_app. now left.
  - symmetry. apply not_true_iff_false. rewrite existsb_exists.
    intros (p & Hp & E). destruct (status_of tb p) eqn:S; try discriminate.
    apply status_Running in S. destruct (H p Hp); tauto.
Qed.

(** Induction on a process tree with its children. *)
Lemma ptree_induction (P : ptree -> Prop) :
  (forall p ks, Forall P ks -> P (PNode p ks)) -> forall t, P t.
Proof.
  intros H. fix IH 1. intros [p ks]. apply H.
  induction ks as [|k ks IHks]; constructor; [apply IH | exact IHks].
Qed.

Lemma in_fold_below (ks : list ptree) :
  forall acc p,
    In p (fold_left (fun acc k => below k ++ acc) ks acc) <->
    In p acc \/ exists k, In k ks /\ In p (below k).
Proof.
  induction ks as [|k ks IH]; intros acc p; simpl.
  - split; [now left | intros [H|(k & [] & _)]; exact H].
  - rewrite IH, in_app_iff. split.
    + intros [[H|H]|(k' & Hk & H)]; [right; exists k; auto | now left |].
      right. exists k'. auto.
    + intros [H|(k' & [<-|Hk] & H)]; [left; now right | left; now left |].
      right. exists k'. auto.
Qed.

(** The listing holds every transitive descendant, whatever its order. *)
Lemma below_descendants (t : ptree) :
  forall p, In p (below t) <-> In p (match t with PNode _ ks => flat_map pids ks end).
Proof.
  induction t as [r ks IH] using ptree_induction. intros p.
  simpl. rewrite in_app_iff, in_fold_below, in_map_iff, in_flat_map.
  rewrite Forall_forall in IH. split.
  - intros [(k & <- & Hk)|[[]|(k & Hk & H)]].
    + exists k. split; [exact Hk|]. destruct k. now left.
    + exists k. split; [exact Hk|]. apply (IH k Hk) in H. destruct k. now right.
  - intros (k & Hk & H). destruct k as [q qs] eqn:E. destruct H as [<-|H].
    + left. exists (PNode q qs). now split.
    + right. right. exists (PNode q qs). split; [exact Hk|].
      apply (IH _ Hk). exact H.
Qed.

Lemma pids_root_children (t : ptree) :
  forall p, In p (pids t) <-> p = root_pid t \/ In p (children_recursive t).
Proof.
  intros p. unfold children_recursive. rewrite below_descendants.
  destruct t as [r ks]. simpl. intuition.
Qed.

Lemma root_alive_dec (process : ptree) (race : list (list Z)) (tb : ptable) :
  (root_alive process race tb /\
   mem (root_pid process) (hd [] race ++ exited tb) = false) \/
  (~ root_alive process race tb /\
   mem (root_pid process) (hd [] race ++ exited tb) = true).
Proof.
  unfold root_alive.
  destruct (mem (root_pid process) (hd [] race ++ exited tb)) eqn:E.
  - right. split; [|reflexivity]. intros H. apply H. now apply mem_In.
  - left. split; [|reflexivity]. intros H. apply mem_In in H. congruence.
Qed.

(** On a root that is still there [kill_all] returns, whatever leaves
    during the loop: it raises nothing, its assertion holds, and every
    process of the tree is then gone, after having been signalled unless it
    had already left by itself. *)
Lemma kill_all_spec (process : ptree) (races : list (list Z)) (tb : ptable) :
  root_alive process races tb ->
  exists tb',
    kill_all process races tb = KillReturned tb' /\
    (forall p, In p (pids process) -> status_of tb' p = Gone) /\
    (forall p, In p (pids process) ->
       In p (signalled tb') \/ In p (exited tb) \/ In p (concat races)) /\
    (forall p, In p (signalled tb') ->
       In p (signalled tb) \/ In p (pids process)).
Proof.
  intros Hroot. unfold kill_all.
  destruct (root_alive_dec process races tb) as [[_ E]|[H _]]; [|contradiction].
  simpl. rewrite E.
  destruct (kill_each_spec (children_recursive process ++ [root_pid process])
              (tl races) (vanish (hd [] races) tb))
    as (tb1 & -> & Hall & Hs & He & Hs' & He').
  destruct (wait_procs_spec _ tb1 Hall) as (gone & ->).
  eexists. split; [reflexivity|].
  assert (Hin : forall p, In p (pids process) <->
                  In p (children_recursive process ++ [root_pid process])).
  { intros p. rewrite pids_root_children, in_app_iff. simpl. intuition. }
  repeat split.
  - intros p Hp. apply status_Gone. simpl. apply in_or_app. left. now apply Hin.
  - intros p Hp. simpl. apply Hin in Hp.
    destruct (Hall p Hp) as [H|H]; [now left|]. right.
    apply He' in H. simpl in H. rewrite in_app_iff in H.
    destruct races as [|r races]; simpl in *; [tauto|].
    rewrite in_app_iff. tauto.
  - intros p Hp. simpl in Hp. destruct (Hs' p Hp) as [H|H]; [now left|].
    right. now apply Hin.
Qed.

(** On a root that has left, the listing of the descendants raises, before
    any signal. *)
Lemma kill_all_gone_root (process : ptree) (races : list (list Z)) (tb : ptable) :
  ~ root_alive process races tb ->
  kill_all process races tb = KillRaised NoSuchProcess.
Proof.
  intros Hroot. unfold kill_all.
  destruct (root_alive_dec process races tb) as [[H _]|[_ E]]; [contradiction|].
  simpl. now rewrite E.
Qed.

(** ** The watchdog *)

Section WatchdogFacts.
Variables (tool : string) (max_time max_memory : Z).
Variables (process : ptree) (race : list (list Z)).

Local Abbreviation round := (tick tool max_time max_memory process race).
Local Abbreviation run := (loop tool max_time max_memory process race).

Lemma kill_then_raise_spec (e : exn) (st : wstate) :
  root_alive process race (procs st) ->
  exists tb,
    kill_then_raise process race e st
      = Stop (Threw e) (mkW (self st) tb (asleep st)) /\
    tree_dead process tb.
Proof.
  intros Hroot. unfold kill_then_raise.
  destruct (kill_all_spec Hroot) as (tb & -> & Hdead & _).
  exists tb. split; [reflexivity | exact Hdead].
Qed.

(** The [NoSuchProcess] of the listing is caught by [enforce_limits]. *)
Lemma kill_then_raise_gone_root (e : exn) (st : wstate) :
  ~ root_alive process race (procs st) ->
  kill_then_raise process race e st = Stop Caught st.
Proof.
  intros Hroot. unfold kill_then_raise. now rewrite kill_all_gone_root.
Qed.

Lemma kill_then_raise_cases (e : exn) (st : wstate) :
  (root_alive process race (procs st) /\
   exists tb,
     kill_then_raise process race e st
       = Stop (Threw e) (mkW (self st) tb (asleep st)) /\
     tree_dead process tb /\
     (forall p, In p (signalled tb) ->
                In p (signalled (procs st)) \/ In p (pids process))) \/
  (~ root_alive process race (procs st) /\
   kill_then_raise process race e st = Stop Caught st).
Proof.
  destruct (root_alive_dec process race (procs st)) as [[H _]|[H _]].
  - left. split; [exact H|]. unfold kill_then_raise.
    destruct (kill_all_spec H) as (tb & -> & Hdead & _ & Hs).
    exists tb. repeat split; assumption.
  - right. split; [exact H | now apply kill_then_raise_gone_root].
Qed.

(** The memory branch of a round. *)
Lemma tick_memory_exceeded (st : wstate) (rss : Z) (d : Q) :
  let peak := py_max (_max_memory_used (self st)) (rss_mb rss) in
  (inject_Z max_memory < peak)%Q ->
  root_alive process race (procs st) ->
  exists tb,
    round st (mkPoll (Rss rss) d)
      = Stop (Threw (MemoryExceededError tool peak max_memory))
             (mkW (set_max_memory_used peak (self st)) tb (asleep st)) /\
    tree_dead process tb.
Proof.
  intros peak H Hroot. unfold tick. simpl. fold peak.
  rewrite (proj2 (py_gt_true _ _) H).
  match goal with |- context [kill_then_raise _ _ ?e ?s] =>
    destruct (kill_then_raise_spec e s Hroot) as (tb & E & Hd) end.
  exists tb. split; [exact E | exact Hd].
Qed.

Lemma tick_memory_exceeded_gone_root (st : wstate) (rss : Z) (d : Q) :
  let peak := py_max (_max_memory_used (self st)) (rss_mb rss) in
  (inject_Z max_memory < peak)%Q ->
  ~ root_alive process race (procs st) ->
  round st (mkPoll (Rss rss) d)
    = Stop Caught (mkW (set_max_memory_used peak (self st)) (procs st) (asleep st)).
Proof.
  intros peak H Hroot. unfold tick. simpl. fold peak.
  rewrite (proj2 (py_gt_true _ _) H).
  now rewrite kill_then_raise_gone_root.
Qed.

(** The time branch of a round: the total compared is the one the round
    started with. *)
Lemma tick_time_exceeded (st : wstate) (rss : Z) (d : Q) :
  let peak := py_max (_max_memory_used (self st)) (rss_mb rss) in
  (peak <= inject_Z max_memory)%Q ->
  (inject_Z max_time < _user_time (self st))%Q ->
  root_alive process race (procs st) ->
  exists tb,
    round st (mkPoll (Rss rss) d)
      = Stop (Threw (TimeExceededError tool (_user_time (self st)) max_time))
             (mkW (set_max_memory_used peak (self st)) tb (asleep st)) /\
    tree_dead process tb.
Proof.
  intros peak Hm Ht Hroot. unfold tick. simpl. fold peak.
  rewrite (proj2 (py_gt_false _ _) Hm), (proj2 (py_gt_true _ _) Ht).
  match goal with |- context [kill_then_raise _ _ ?e ?s] =>
    destruct (kill_then_raise_spec e s Hroot) as (tb & E & Hd) end.
  exists tb. split; [exact E | exact Hd].
Qed.

Lemma tick_time_exceeded_gone_root (st : wstate) (rss : Z) (d : Q) :
  let peak := py_max (_max_memory_used (self st)) (rss_mb rss) in
  (peak <= inject_Z max_memory)%Q ->
  (inject_Z max_time < _user_time (self st))%Q ->
  ~ root_alive process race (procs st) ->
  round st (mkPoll (Rss rss) d)
    = Stop Caught (mkW (set_max_memory_used peak (self st)) (procs st) (asleep st)).
Proof.
  intros peak Hm Ht Hroot. unfold tick. simpl. fold peak.
  rewrite (proj2 (py_gt_false _ _) Hm), (proj2 (py_gt_true _ _) Ht).
  now rewrite kill_then_raise_gone_root.
Qed.

(** The quiet branch: the increment and the sleep. *)
Lemma tick_continue (st : wstate) (rss : Z) (d : Q) :
  let peak := py_max (_max_memory_used (self st)) (rss_mb rss) in
  (peak <= inject_Z max_memory)%Q ->
  (_user_time (self st) <= inject_Z max_time)%Q ->
  round st (mkPoll (Rss rss) d)
    = Continue (mkW (set_user_time (_user_time (self st) + interval)
                       (set_max_memory_used peak (self st)))
                    (procs st) (asleep st + d)).
Proof.
  intros peak Hm Ht. unfold tick. simpl. fold peak.
  now rewrite (proj2 (py_gt_false _ _) Hm), (proj2 (py_gt_false _ _) Ht).
Qed.

(** Every way a round can end. *)
Lemma tick_cases (st : wstate) (p : poll) :
  match round st p with
  | Continue st' =>
      exists rss,
        sample p = Rss rss /\
        st' = mkW (set_user_time (_user_time (self st) + interval)
                     (set_max_memory_used
                        (py_max (_max_memory_used (self st)) (rss_mb rss)) (self st)))
                  (procs st) (asleep st + slept p)
  | Stop Caught st' =>
      procs st' = procs st /\ asleep st' = asleep st /\
      (self st' = self st \/
       exists rss,
         sample p = Rss rss /\
         self st' = set_max_memory_used
                      (py_max (_max_memory_used (self st)) (rss_mb rss)) (self st))
  | Stop (Threw e) st' =>
      exists rss,
        sample p = Rss rss /\
        self st' = set_max_memory_used
                     (py_max (_max_memory_used (self st)) (rss_mb rss)) (self st) /\
        asleep st' = asleep st /\
        tree_dead process (procs st') /\
        ((e = MemoryExceededError tool (_max_memory_used (self st')) max_memory /\
          (inject_Z max_memory < _max_memory_used (self st'))%Q) \/
         (e = TimeExceededError tool (_user_time (self st')) max_time /\
          (inject_Z max_time < _user_time (self st'))%Q))
  | Stop LoopExit _ | Stop Stuck _ => False
  end.
Proof.
  destruct p as [[rss|] d]; unfold tick; simpl; [|repeat split; now left].
  set (peak := py_max (_max_memory_used (self st)) (rss_mb rss)).
  destruct (py_gt peak (inject_Z max_memory)) eqn:Em.
  - apply py_gt_true in Em.
    match goal with |- context [kill_then_raise _ _ ?e ?s] =>
      destruct (kill_then_raise_cases e s) as [(_ & tb & -> & Hd & _)|(_ & ->)] end.
    + exists rss. simpl. repeat split; auto.
    + simpl. repeat split. right. exists rss. now split.
  - destruct (py_gt (_user_time (self st)) (inject_Z max_time)) eqn:Et.
    + apply py_gt_true in Et.
      match goal with |- context [kill_then_raise _ _ ?e ?s] =>
        destruct (kill_then_raise_cases e s) as [(_ & tb & -> & Hd & _)|(_ & ->)] end.
      * exists rss. simpl. repeat split; auto.
      * simpl. repeat split. right. exists rss. now split.
    + exists rss. split; reflexivity.
Qed.

(** The thread stops by itself, is never stuck, and lets out nothing but
    the two limit errors, the tree being dead by then. *)
Lemma loop_ending (ps : list poll) :
  forall st,
    match ending (run st ps) with
    | LoopExit | Caught => True
    | Threw e => limit_error e /\ tree_dead process (procs (final (run st ps)))
    | Stuck => False
    end.
Proof.
  induction ps as [|p ps IH]; intros st; simpl; [exact I|].
  pose proof (tick_cases st p) as H.
  destruct (round st p) as [st'|how st'].
  - apply IH.
  - destruct how; simpl; try exact I; try contradiction.
    destruct H as (rss & _ & _ & _ & Hd & [[-> _]|[-> _]]); split; simpl; auto.
Qed.

(** What the error of the thread carries. *)
Lemma loop_threw (ps : list poll) :
  forall st e,
    ending (run st ps) = Threw e ->
    (e = MemoryExceededError tool
           (_max_memory_used (self (final (run st ps)))) max_memory /\
     (inject_Z max_memory < _max_memory_used (self (final (run st ps))))%Q) \/
    (e = TimeExceededError tool (_user_time (self (final (run st ps)))) max_time /\
     (inject_Z max_time < _user_time (self (final (run st ps))))%Q).
Proof.
  induction ps as [|p ps IH]; intros st e; simpl; [discriminate|].
  pose proof (tick_cases st p) as H.
  destruct (round st p) as [st'|how st'].
  - apply IH.
  - simpl. intros ->.
    destruct H as (rss & _ & _ & _ & _ & H). exact H.
Qed.

Lemma accumulated_S (n : nat) : (accumulated (S n) == accumulated n + interval)%Q.
Proof.
  unfold accumulated. rewrite Nat2Z.inj_succ, <- Z.add_1_r, inject_Z_plus.
  change (inject_Z 1) with 1%Q. ring.
Qed.

Lemma accumulated_0 : (accumulated 0 == 0)%Q.
Proof. reflexivity. Qed.

Lemma accumulated_nonneg (n : nat) : (0 <= accumulated n)%Q.
Proof.
  unfold accumulated, interval. apply Qmult_le_0_compat; [|lra].
  change 0%Q with (inject_Z 0). rewrite <- Zle_Qle. lia.
Qed.

(** With [n + 1] quiet rounds ahead, a ceiling that the [n]-th increment
    crosses is noticed in round [n + 1], not before: the error carries the
    total after [n] increments. *)
Lemma loop_raises_after (n : nat) :
  forall ps st,
    (S n <= length ps)%nat ->
    Forall (within_ceiling max_memory) (firstn (S n) ps) ->
    (_max_memory_used (self st) <= inject_Z max_memory)%Q ->
    (n = O \/
     _user_time (self st) + accumulated n - interval <= inject_Z max_time)%Q ->
    (inject_Z max_time < _user_time (self st) + accumulated n)%Q ->
    root_alive process race (procs st) ->
    exists v,
      ending (run st ps) = Threw (TimeExceededError tool v max_time) /\
      (v == _user_time (self st) + accumulated n)%Q /\
      length (rounds (run st ps)) = S n /\
      tree_dead process (procs (final (run st ps))).
Proof.
  induction n as [|n IH]; intros ps st Hlen Hq Hpeak Hlow Hhigh Hroot;
    (destruct ps as [|[[rss|] d] ps]; [simpl in Hlen; lia | | ]);
    try (apply Forall_inv in Hq; contradiction).
  - apply Forall_inv in Hq. unfold within_ceiling in Hq. simpl in Hq.
    assert (Hm : (py_max (_max_memory_used (self st)) (rss_mb rss)
                  <= inject_Z max_memory)%Q).
    { unfold py_max. destruct (py_gt _ _); assumption. }
    assert (Ht : (inject_Z max_time < _user_time (self st))%Q).
    { pose proof accumulated_0. lra. }
    destruct (tick_time_exceeded st rss d Hm Ht Hroot) as (tb & E & Hd).
    simpl. rewrite E. simpl.
    eexists. repeat split; [|exact Hd].
    pose proof accumulated_0. lra.
  - pose proof (Forall_inv Hq) as Hq1. unfold within_ceiling in Hq1. simpl in Hq1.
    assert (Hm : (py_max (_max_memory_used (self st)) (rss_mb rss)
                  <= inject_Z max_memory)%Q).
    { unfold py_max. destruct (py_gt _ _); assumption. }
    pose proof (accumulated_S n) as HS.
    pose proof (accumulated_nonneg n) as H0.
    assert (Ht : (_user_time (self st) <= inject_Z max_time)%Q).
    { destruct Hlow as [Hlow|Hlow]; [discriminate | lra]. }
    simpl. rewrite (tick_continue st rss d Hm Ht). simpl.
    match goal with |- context [run ?s ps] =>
      destruct (IH ps s) as (v & E & Hv & Hl & Hd) end.
    + simpl in Hlen. lia.
    + simpl in Hq. now apply Forall_inv_tail in Hq.
    + exact Hm.
    + simpl. destruct n as [|n]; [now left | right].
      destruct Hlow as [Hlow|Hlow]; [discriminate|]. lra.
    + simpl. lra.
    + exact Hroot.
    + exists v. simpl in *.
      split; [exact E|]. split; [lra|]. split; [now rewrite Hl | exact Hd].
Qed.

(** The thread writes the two totals and nothing else of the object. *)
Lemma loop_keeps_returncode (ps : list poll) :
  forall st, returncode (self (final (run st ps))) = returncode (self st).
Proof.
  induction ps as [|p ps IH]; intros st; simpl; [reflexivity|].
  pose proof (tick_cases st p) as H.
  destruct (round st p) as [st'|how st'].
  - simpl. rewrite IH.
    destruct H as (rss & _ & ->). reflexivity.
  - simpl. destruct how; try contradiction.
    + destruct H as (_ & _ & [->|(rss & _ & ->)]); reflexivity.
    + destruct H as (rss & _ & -> & _). reflexivity.
Qed.

(** One round never lowers a total; the time it adds is time slept. *)
Lemma tick_grows (st : wstate) (p : poll) :
  (interval <= slept p)%Q ->
  match round st p with
  | Continue st' | Stop _ st' =>
      le_totals st st' /\
      (asleep st <= asleep st')%Q /\
      (_user_time (self st') - asleep st' <= _user_time (self st) - asleep st)%Q
  end.
Proof.
  intros Hp. pose proof (tick_cases st p) as H. unfold le_totals.
  pose proof (fun b => py_max_l (_max_memory_used (self st)) b) as Hmax.
  unfold interval in *.
  destruct (round st p) as [st'|how st'].
  - destruct H as (rss & _ & ->). simpl. specialize (Hmax (rss_mb rss)).
    repeat split; lra.
  - destruct how; try contradiction.
    + destruct H as (_ & -> & [->|(rss & _ & ->)]); simpl;
        [|specialize (Hmax (rss_mb rss))]; repeat split; lra.
    + destruct H as (rss & _ & -> & -> & _). simpl. specialize (Hmax (rss_mb rss)).
      repeat split; lra.
Qed.

Lemma le_totals_trans (a b c : wstate) :
  le_totals a b -> le_totals b c -> le_totals a c.
Proof. unfold le_totals. intros [] []. split; lra. Qed.

(** Across the rounds of one thread the totals never decrease, the last
    state dominates every state seen, and the polled time stays below the
    time really slept. *)
Lemma loop_totals (ps : list poll) :
  forall st,
    Forall (fun p => interval <= slept p)%Q ps ->
    StronglySorted le_totals (st :: rounds (run st ps)) /\
    Forall (fun s => le_totals s (final (run st ps)))
           (st :: rounds (run st ps)) /\
    (asleep st <= asleep (final (run st ps)))%Q /\
    (_user_time (self (final (run st ps))) - asleep (final (run st ps))
     <= _user_time (self st) - asleep st)%Q.
Proof.
  induction ps as [|p ps IH]; intros st Hps; simpl.
  - repeat split.
    + repeat constructor.
    + repeat constructor; lra.
    + lra.
    + lra.
  - pose proof (tick_grows st p (Forall_inv Hps)) as H.
    destruct (round st p) as [st'|how st'].
    + destruct (IH st' (Forall_inv_tail Hps)) as (Hs & Hf & Ha & Hu).
      destruct H as (Hle & Hsl & Hut).
      simpl in *.
      repeat split; try lra.
      * constructor; [exact Hs|].
        constructor; [exact Hle|].
        apply StronglySorted_inv in Hs as [_ Hall].
        eapply Forall_impl; [|exact Hall].
        intros s. now apply le_totals_trans.
      * constructor; [|exact Hf].
        apply Forall_inv in Hf. eapply le_totals_trans; eassumption.
    + destruct H as (Hle & Hsl & Hut).
      simpl.
      repeat split; try lra.
      * repeat constructor; apply Hle.
      * repeat constructor; try apply Hle; lra.
Qed.

(** After quiet rounds, a sample above the memory ceiling is noticed in the
    round that reads it, and the error carries that sample. *)
Lemma loop_raises_memory (pre : list poll) :
  forall st p rest rss,
    Forall (within_ceiling max_memory) pre ->
    (_max_memory_used (self st) <= inject_Z max_memory)%Q ->
    (pre = [] \/
     _user_time (self st) + accumulated (length pre) - interval
     <= inject_Z max_time)%Q ->
    sample p = Rss rss ->
    (inject_Z max_memory < rss_mb rss)%Q ->
    root_alive process race (procs st) ->
    ending (run st (pre ++ p :: rest))
      = Threw (MemoryExceededError tool (rss_mb rss) max_memory) /\
    length (rounds (run st (pre ++ p :: rest))) = S (length pre) /\
    tree_dead process (procs (final (run st (pre ++ p :: rest)))).
Proof.
  induction pre as [|q pre IH]; intros st p rest rss Hq Hpeak Htime Hs Hover Hroot.
  - destruct p as [sp d]. simpl in Hs. subst sp.
    assert (E : py_max (_max_memory_used (self st)) (rss_mb rss) = rss_mb rss).
    { unfold py_max. rewrite (proj2 (py_gt_true _ _)); [reflexivity | lra]. }
    assert (Hover' : (inject_Z max_memory
                      < py_max (_max_memory_used (self st)) (rss_mb rss))%Q)
      by (rewrite E; exact Hover).
    destruct (tick_memory_exceeded st rss d Hover' Hroot) as (tb & Et & Hd).
    simpl. rewrite Et, E. simpl. repeat split. exact Hd.
  - destruct q as [[r|] d]; [|apply Forall_inv in Hq; contradiction].
    pose proof (Forall_inv Hq) as Hq1. unfold within_ceiling in Hq1. simpl in Hq1.
    assert (Hm : (py_max (_max_memory_used (self st)) (rss_mb r)
                  <= inject_Z max_memory)%Q).
    { unfold py_max. destruct (py_gt _ _); assumption. }
    pose proof (accumulated_S (length pre)) as HS.
    pose proof (accumulated_nonneg (length pre)) as H0.
    assert (Ht : (_user_time (self st) <= inject_Z max_time)%Q).
    { destruct Htime as [H|H]; [discriminate|].
      change (length (mkPoll (Rss r) d :: pre)) with (S (length pre)) in H. lra. }
    change ((mkPoll (Rss r) d :: pre) ++ p :: rest)
      with (mkPoll (Rss r) d :: (pre ++ p :: rest)).
    simpl. rewrite (tick_continue st r d Hm Ht). simpl.
    match goal with |- context [run ?s (pre ++ p :: rest)] =>
      destruct (IH s p rest rss) as (E & Hl & Hd) end.
    + now apply Forall_inv_tail in Hq.
    + exact Hm.
    + simpl. destruct pre as [|q' pre]; [now left | right].
      destruct Htime as [H|H]; [discriminate|].
      change (length (mkPoll (Rss r) d :: q' :: pre)) with (S (length (q' :: pre))) in H.
      lra.
    + exact Hs.
    + exact Hover.
    + exact Hroot.
    + simpl in *. split; [exact E|]. split; [now rewrite Hl | exact Hd].
Qed.
End WatchdogFacts.

(** ** The supervisor *)

Section SupervisorFacts.
Variables (tool : string) (arguments : list string).
Variables (read_stdout : option callback) (env : option (list (string * string))).
Variables (max_time max_memory : Z) (w : world).

Local Abbreviation run := (RunProcess_init tool arguments read_stdout env max_time max_memory w).
Local Abbreviation wd := (thread tool max_time max_memory w).

Lemma thread_ending :
  match ending wd with
  | LoopExit | Caught => True
  | Threw e => limit_error e /\ tree_dead (tree w) (procs (final wd))
  | Stuck => False
  end.
Proof.
  unfold thread, enforce_limits. destruct (pid_found w); [|exact I].
  apply loop_ending.
Qed.

Lemma thread_threw (e : exn) :
  ending wd = Threw e ->
  (e = MemoryExceededError tool (_max_memory_used (self (final wd))) max_memory /\
   (inject_Z max_memory < _max_memory_used (self (final wd)))%Q) \/
  (e = TimeExceededError tool (_user_time (self (final wd))) max_time /\
   (inject_Z max_time < _user_time (self (final wd)))%Q).
Proof.
  unfold thread, enforce_limits. destruct (pid_found w); [|discriminate].
  apply loop_threw.
Qed.

Lemma except_limit_error (e : exn) :
  limit_error e -> except_FileNotFoundError tool e = e.
Proof. destruct e; simpl; tauto. Qed.

Lemma watchdog_is_thread r :
  watchdog run = Some r -> Popen (tool_path w) = None /\ r = wd.
Proof.
  unfold RunProcess_init. destruct (Popen (tool_path w)); [discriminate|].
 
  destruct (snd (relay _ _ _)); destruct (ending wd);
    try destruct (exit_status w =? 0); simpl; intros [= <-]; auto.
Qed.

Lemma watchdog_submitted :
  Popen (tool_path w) = None -> watchdog run = Some wd.
Proof.
  intros Hs. unfold RunProcess_init. rewrite Hs.
  destruct (snd (relay _ _ _)); destruct (ending wd);
    try reflexivity; destruct (exit_status w =? 0); reflexivity.
Qed.

(** When the relay runs to the end of the stream, an exception of the
    watchdog is what the constructor raises, whatever the exit status. *)
Lemma run_reports_watchdog (e : exn) :
  Popen (tool_path w) = None ->
  snd (relay read_stdout [] (readlines (output w))) = None ->
  ending wd = Threw e ->
  result run = Raised e.
Proof.
  intros Hs Hr He. unfold RunProcess_init. rewrite Hs, Hr.
  rewrite He. simpl. f_equal. apply except_limit_error.
  pose proof thread_ending as H. rewrite He in H. apply H.
Qed.

(** Without exception from the relay or the watchdog the constructor gets
    to its last lines. *)
Lemma run_natural_exit :
  Popen (tool_path w) = None ->
  snd (relay read_stdout [] (readlines (output w))) = None ->
  (forall e, ending wd <> Threw e) ->
  result run =
    (if exit_status w =? 0 then Returned
     else Raised (ToolRuntimeError tool arguments (exit_status w))) /\
  object run =
    set_user_time (perf_counter_after w (asleep (final wd)) - t_before w)
      (self (final wd)).
Proof.
  intros Hs Hr He. unfold RunProcess_init. rewrite Hs, Hr.
  pose proof thread_ending as H.
  destruct (ending wd) eqn:E; try contradiction;
    try (exfalso; eapply He; reflexivity);
    destruct (exit_status w =? 0); split; reflexivity.
Qed.
End SupervisorFacts.

Lemma relay_without_callback (lines : list string) :
  forall seen, relay None seen lines = (seen, None).
Proof. induction lines; simpl; auto. Qed.

(** ** The time ceiling *)

(** The scenario of [test_timeout]: no callback, [max_time=1], and a child
    that the watchdog still finds running at its twelfth round, the root
    still there when the kill lists its descendants.  The ceiling is crossed
    by the eleventh increment and noticed in the twelfth round. *)
Lemma test_timeout_scenario (tool : string) (arguments : list string)
    (env : option (list (string * string))) (max_memory : Z) (w : world) :
  Popen (tool_path w) = None ->
  pid_found w = true ->
  0 <= max_memory ->
  (12 <= length (polls w))%nat ->
  Forall (within_ceiling max_memory) (firstn 12 (polls w)) ->
  root_present w ->
  exists v,
    result (RunProcess_init tool arguments None env 1 max_memory w)
      = Raised (TimeExceededError tool v 1) /\
    (1 <= v)%Q /\
    ticks (RunProcess_init tool arguments None env 1 max_memory w) = 12%nat.
Proof.
  intros Hs Hf Hm Hlen Hq Hroot.
  destruct (@loop_raises_after tool 1 max_memory (tree w) (races w) 11
              (polls w) fresh Hlen Hq) as (v & E & Hv & Hl & _).
  - simpl. change 0%Q with (inject_Z 0). now rewrite <- Zle_Qle.
  - right. vm_compute. discriminate.
  - vm_compute. reflexivity.
  - exact Hroot.
  - exists v. split; [|split; [rewrite Hv; vm_compute; discriminate|]].
    + apply run_reports_watchdog; [exact Hs | now rewrite relay_without_callback |].
      unfold thread, enforce_limits. now rewrite Hf.
    + unfold ticks. rewrite watchdog_submitted by exact Hs.
      unfold thread, enforce_limits. now rewrite Hf.
Qed.

(** In binary64 the ceiling of one second is crossed by the same increment:
    up to ten additions of 0.1 stay at or below 1 (ten give
    0.9999999999999999), eleven give 1.0999999999999999, which is above 1
    and below the double 1.1. *)
Lemma binary64_crosses_one_at_eleven :
  (forall n, (n <= 10)%nat ->
     PrimFloat.ltb 1%float (accumulated_binary64 n) = false) /\
  PrimFloat.ltb 1%float (accumulated_binary64 11) = true /\
  PrimFloat.leb 1%float (accumulated_binary64 11) = true /\
  PrimFloat.ltb (accumulated_binary64 11) 0x1.199999999999ap+0%float = true.
Proof.
  split; [|vm_compute; repeat split].
  intros n Hn.
  do 11 (destruct n as [|n]; [vm_compute; reflexivity|]). lia.
Qed.

(** C1, as the code has it: a round whose sample fits under the memory
    ceiling compares the time accumulated before the round with [max_time].
    Above the ceiling it calls [kill_all]: when the root is still there the
    tree is killed and [TimeExceededError] is raised with the tool name, that
    time and the ceiling; when the root has left, the [NoSuchProcess] of the
    listing ends the thread without any error.  Otherwise the round adds the
    polling interval and sleeps.  With [max_time=1] and a child that is still
    running at the twelfth round the constructor raises [TimeExceededError]
    in that round, with a value of at least 1; the binary64 total is above
    the ceiling for the first time after the same eleven increments, and is
    then at least 1 as well. *)
Theorem time_ceiling_checked_before_increment
    (tool : string) (max_time max_memory : Z) (process : ptree)
    (race : list (list Z)) (st : wstate) (rss : Z) (d : Q) :
  (py_max (_max_memory_used (self st)) (rss_mb rss) <= inject_Z max_memory)%Q ->
  ((inject_Z max_time < _user_time (self st))%Q ->
   (root_alive process race (procs st) ->
    exists tb,
      tick tool max_time max_memory process race st (mkPoll (Rss rss) d)
        = Stop (Threw (TimeExceededError tool (_user_time (self st)) max_time))
               (mkW (set_max_memory_used
                       (py_max (_max_memory_used (self st)) (rss_mb rss)) (self st))
                    tb (asleep st)) /\
      tree_dead process tb) /\
   (~ root_alive process race (procs st) ->
    tick tool max_time max_memory process race st (mkPoll (Rss rss) d)
      = Stop Caught
             (mkW (set_max_memory_used
                     (py_max (_max_memory_used (self st)) (rss_mb rss)) (self st))
                  (procs st) (asleep st)))) /\
  ((_user_time (self st) <= inject_Z max_time)%Q ->
   tick tool max_time max_memory process race st (mkPoll (Rss rss) d)
     = Continue (mkW (set_user_time (_user_time (self st) + interval)
                        (set_max_memory_used
                           (py_max (_max_memory_used (self st)) (rss_mb rss)) (self st)))
                     (procs st) (asleep st + d))) /\
  (forall arguments env w,
     Popen (tool_path w) = None ->
     pid_found w = true ->
     0 <= max_memory ->
     (12 <= length (polls w))%nat ->
     Forall (within_ceiling max_memory) (firstn 12 (polls w)) ->
     root_present w ->
     exists v,
       result (RunProcess_init tool arguments None env 1 max_memory w)
         = Raised (TimeExceededError tool v 1) /\
       (1 <= v)%Q /\
       ticks (RunProcess_init tool arguments None env 1 max_memory w) = 12%nat) /\
  ((forall n, (n <= 10)%nat ->
      PrimFloat.ltb 1%float (accumulated_binary64 n) = false) /\
   PrimFloat.ltb 1%float (accumulated_binary64 11) = true /\
   PrimFloat.leb 1%float (accumulated_binary64 11) = true).
Proof.
  intros Hm. split; [|split; [|split]].
  - intros Ht. split; intros Hroot.
    + now apply tick_time_exceeded.
    + now apply tick_time_exceeded_gone_root.
  - intros Ht. now apply tick_continue.
  - intros. now apply test_timeout_scenario.
  - pose proof binary64_crosses_one_at_eleven as (H1 & H2 & H3 & _).
    repeat split; assumption.
Qed.

Lemma sleeper_within_ceiling :
  Forall (within_ceiling sys_maxsize) (firstn 12 (polls sleeper)).
Proof.
  repeat constructor; unfold within_ceiling; simpl; vm_compute; discriminate.
Qed.

Lemma sleeper_root_present : root_present sleeper.
Proof. unfold root_present, root_alive. simpl. tauto. Qed.

Lemma time_ceiling_checked_before_increment_witness :
  exists v,
    result (RunProcess_init "sleep" ["2"%string] None None 1 sys_maxsize sleeper)
      = Raised (TimeExceededError "sleep" v 1) /\
    (1 <= v)%Q /\
    ticks (RunProcess_init "sleep" ["2"%string] None None 1 sys_maxsize sleeper)
      = 12%nat.
Proof.
  assert (H : (py_max (_max_memory_used (self fresh)) (rss_mb 1048576)
               <= inject_Z sys_maxsize)%Q) by (vm_compute; discriminate).
  apply (proj1 (proj2 (proj2 (@time_ceiling_checked_before_increment
                                "sleep" 1 sys_maxsize family [] fresh 1048576
                                (1 # 10) H)))).
  - reflexivity.
  - reflexivity.
  - vm_compute. discriminate.
  - simpl. lia.
  - exact sleeper_within_ceiling.
  - exact sleeper_root_present.
Defined.

(** C1 as it is worded fails: a round that adds the interval does not look
    at the new total.  With [max_time=0] the first round leaves a total of
    0.1, above the ceiling, kills nothing and raises nothing, where the round
    that increments first raises; the child exiting before a second round,
    the constructor returns.  And a round that does find the total above the
    ceiling raises nothing when the root has just left: with [max_time=1]
    the twelfth round of [late_leaver] signals no process and the
    constructor returns. *)
Lemma tick_ignores_its_own_increment :
  tick "tool" 0 sys_maxsize family [] fresh (quiet 0)
    = Continue (mkW (set_user_time (0 + interval)
                       (set_max_memory_used (py_max 0 (rss_mb 0)) (self fresh)))
                    no_procs (0 + (1 # 10))) /\
  (inject_Z 0 < 0 + interval)%Q /\
  (exists tb,
     tick_increment_first "tool" 0 sys_maxsize family [] fresh (quiet 0)
       = Stop (Threw (TimeExceededError "tool" (0 + interval) 0))
              (mkW (set_user_time (0 + interval)
                      (set_max_memory_used (py_max 0 (rss_mb 0)) (self fresh)))
                   tb 0)) /\
  result (RunProcess_init "tool" [] None None 0 sys_maxsize brief) = Returned /\
  (inject_Z 0 < user_time (self (final (thread "tool" 0 sys_maxsize brief))))%Q /\
  result (RunProcess_init "sleep" ["2"%string] None None 1 sys_maxsize late_leaver)
    = Returned /\
  ticks (RunProcess_init "sleep" ["2"%string] None None 1 sys_maxsize late_leaver)
    = 12%nat /\
  kills (RunProcess_init "sleep" ["2"%string] None None 1 sys_maxsize late_leaver)
    = [].
Proof.
  split; [reflexivity|]. split; [reflexivity|].
  split; [eexists; reflexivity|].
  split; [reflexivity|]. split; [reflexivity|].
  vm_compute. repeat split.
Qed.

(** ** The memory ceiling *)

Lemma run_raises_memory (tool : string) (arguments : list string)
    (read_stdout : option callback) (env : option (list (string * string)))
    (max_time max_mem : Z) (w : world)
    (pre : list poll) (p : poll) (rest : list poll) (rss : Z) :
  Popen (tool_path w) = None ->
  pid_found w = true ->
  snd (relay read_stdout [] (readlines (output w))) = None ->
  polls w = pre ++ p :: rest ->
  Forall (within_ceiling max_mem) pre ->
  0 <= max_mem ->
  (pre = [] \/ (accumulated (length pre) <= inject_Z max_time)%Q) ->
  sample p = Rss rss ->
  (inject_Z max_mem < rss_mb rss)%Q ->
  root_present w ->
  result (RunProcess_init tool arguments read_stdout env max_time max_mem w)
    = Raised (MemoryExceededError tool (rss_mb rss) max_mem) /\
  ticks (RunProcess_init tool arguments read_stdout env max_time max_mem w)
    = S (length pre) /\
  tree_dead (tree w) (procs (final (thread tool max_time max_mem w))).
Proof.
  intros Hs Hf Hr Hp Hq Hm Ht Hsample Hover Hroot.
  destruct (@loop_raises_memory tool max_time max_mem (tree w) (races w)
              pre fresh p rest rss Hq) as (E & Hl & Hd).
  - simpl. change 0%Q with (inject_Z 0). now rewrite <- Zle_Qle.
  - destruct Ht as [Ht|Ht]; [now left | right].
    change (_user_time (self fresh)) with 0%Q. unfold interval. lra.
  - exact Hsample.
  - exact Hover.
  - exact Hroot.
  - assert (Et : thread tool max_time max_mem w
                 = loop tool max_time max_mem (tree w) (races w) fresh
                        (pre ++ p :: rest)).
    { unfold thread, enforce_limits. now rewrite Hf, Hp. }
    split; [|split].
    + apply run_reports_watchdog; [exact Hs | exact Hr | now rewrite Et].
    + unfold ticks. rewrite watchdog_submitted by exact Hs. now rewrite Et.
    + now rewrite Et.
Qed.

(** C2, as the code has it: each round replaces the peak by the maximum of
    the peak and the sample.  When the new peak is above [max_memory] the
    round calls [kill_all]: with the root still there the tree is killed and
    [MemoryExceededError] is raised with the tool name, the peak and the
    ceiling; with the root gone the [NoSuchProcess] of the listing ends the
    thread, the peak kept and no error raised.  Below the ceiling the round
    raises no memory error.  A memory error of the thread is what the
    constructor raises, and an execution whose first sample above the ceiling
    comes after rounds within both ceilings raises it in the round of that
    sample, the tree dead.  The bound on the rounds keeps the rounding of the
    binary64 total far below the interval left as margin. *)
Theorem peak_memory_tracked_and_enforced
    (tool : string) (max_time max_memory : Z) (process : ptree)
    (race : list (list Z)) (st : wstate) (rss : Z) (d : Q) :
  let peak := py_max (_max_memory_used (self st)) (rss_mb rss) in
  let round := tick tool max_time max_memory process race st (mkPoll (Rss rss) d) in
  (peak == Qmax (_max_memory_used (self st)) (rss_mb rss))%Q /\
  (match round with
   | Continue st' | Stop _ st' => _max_memory_used (self st') = peak
   end) /\
  ((inject_Z max_memory < peak)%Q ->
   (root_alive process race (procs st) ->
    exists tb,
      round = Stop (Threw (MemoryExceededError tool peak max_memory))
                   (mkW (set_max_memory_used peak (self st)) tb (asleep st)) /\
      tree_dead process tb) /\
   (~ root_alive process race (procs st) ->
    round = Stop Caught
                 (mkW (set_max_memory_used peak (self st)) (procs st) (asleep st)))) /\
  ((peak <= inject_Z max_memory)%Q ->
   forall n v c st', round <> Stop (Threw (MemoryExceededError n v c)) st') /\
  (forall arguments read_stdout env w n v c,
     Popen (tool_path w) = None ->
     snd (relay read_stdout [] (readlines (output w))) = None ->
     ending (thread tool max_time max_memory w)
       = Threw (MemoryExceededError n v c) ->
     result (RunProcess_init tool arguments read_stdout env max_time max_memory w)
       = Raised (MemoryExceededError n v c) /\
     n = tool /\ c = max_memory /\ (inject_Z max_memory < v)%Q /\
     v = _max_memory_used (self (final (thread tool max_time max_memory w)))) /\
  (forall arguments read_stdout env w pre p rest rss',
     Popen (tool_path w) = None ->
     pid_found w = true ->
     snd (relay read_stdout [] (readlines (output w))) = None ->
     polls w = pre ++ p :: rest ->
     Forall (within_ceiling max_memory) pre ->
     0 <= max_memory ->
     (pre = [] \/ (accumulated (length pre) <= inject_Z max_time)%Q) ->
     Z.of_nat (length pre) <= 1000000 ->
     sample p = Rss rss' ->
     (inject_Z max_memory < rss_mb rss')%Q ->
     root_present w ->
     result (RunProcess_init tool arguments read_stdout env max_time max_memory w)
       = Raised (MemoryExceededError tool (rss_mb rss') max_memory) /\
     ticks (RunProcess_init tool arguments read_stdout env max_time max_memory w)
       = S (length pre) /\
     tree_dead (tree w) (procs (final (thread tool max_time max_memory w)))).
Proof.
  intros peak round. split; [apply py_max_is_max|].
  assert (Hcase : (inject_Z max_memory < peak)%Q \/ (peak <= inject_Z max_memory)%Q).
  { destruct (Qlt_le_dec (inject_Z max_memory) peak); auto. }
  assert (Htime : (inject_Z max_time < _user_time (self st))%Q \/
                  (_user_time (self st) <= inject_Z max_time)%Q).
  { destruct (Qlt_le_dec (inject_Z max_time) (_user_time (self st))); auto. }
  assert (Hroot : root_alive process race (procs st) \/
                  ~ root_alive process race (procs st)).
  { destruct (root_alive_dec process race (procs st)) as [[H _]|[H _]]; auto. }
  split; [|split; [|split; [|split]]].
  - subst round. destruct Hcase as [H|H].
    + destruct Hroot as [Hr|Hr].
      * destruct (@tick_memory_exceeded tool max_time max_memory process race
                    st rss d H Hr) as (tb & -> & _). reflexivity.
      * rewrite (@tick_memory_exceeded_gone_root tool max_time max_memory process
                   race st rss d H Hr). reflexivity.
    + destruct Htime as [Ht|Ht].
      * destruct Hroot as [Hr|Hr].
        -- destruct (@tick_time_exceeded tool max_time max_memory process race
                       st rss d H Ht Hr) as (tb & -> & _). reflexivity.
        -- rewrite (@tick_time_exceeded_gone_root tool max_time max_memory process
                      race st rss d H Ht Hr). reflexivity.
      * rewrite (@tick_continue tool max_time max_memory process race st rss d H Ht).
        reflexivity.
  - intros H. split; intros Hr.
    + now apply tick_memory_exceeded.
    + now apply tick_memory_exceeded_gone_root.
  - intros H n v c st'. subst round. destruct Htime as [Ht|Ht].
    + destruct Hroot as [Hr|Hr].
      * destruct (@tick_time_exceeded tool max_time max_memory process race
                    st rss d H Ht Hr) as (tb & -> & _). discriminate.
      * rewrite (@tick_time_exceeded_gone_root tool max_time max_memory process
                   race st rss d H Ht Hr). discriminate.
    + rewrite (@tick_continue tool max_time max_memory process race st rss d H Ht).
      discriminate.
  - intros arguments read_stdout env w n v c Hs Hr He.
    split; [now apply run_reports_watchdog|].
    destruct (thread_threw _ _ _ _ He) as [[E H]|[E _]]; [|discriminate].
    injection E as -> -> ->. repeat split; auto.
  - intros arguments read_stdout env w pre p rest rss' Hs Hf Hr Hp Hq Hm Ht _.
    now apply run_raises_memory with (p := p) (rest := rest).
Qed.

Lemma hog_root_present : root_present hog.
Proof. unfold root_present, root_alive. simpl. tauto. Qed.

Lemma peak_memory_tracked_and_enforced_witness :
  result (RunProcess_init "hog" [] None None sys_maxsize 1 hog)
    = Raised (MemoryExceededError "hog" (rss_mb 3145728) 1) /\
  ticks (RunProcess_init "hog" [] None None sys_maxsize 1 hog) = 2%nat /\
  tree_dead family (procs (final (thread "hog" sys_maxsize 1 hog))).
Proof.
  apply (proj2 (proj2 (proj2 (proj2 (proj2
           (@peak_memory_tracked_and_enforced
              "hog" sys_maxsize 1 family [] fresh 3145728 (1 # 10))))))
           [] None None hog [quiet 524288] (quiet 3145728) [quiet 3145728] 3145728).
  - reflexivity.
  - reflexivity.
  - reflexivity.
  - reflexivity.
  - repeat constructor. unfold within_ceiling. simpl. vm_compute. discriminate.
  - lia.
  - right. vm_compute. discriminate.
  - simpl. lia.
  - reflexivity.
  - vm_compute. reflexivity.
  - exact hog_root_present.
Defined.

(** A ceiling of one megabyte: the second sample is above it, and the
    constructor raises after two rounds, the tree killed: the children of
    the root first, then the grandchild, the root last. *)
Lemma hog_is_killed :
  result (RunProcess_init "hog" [] None None sys_maxsize 1 hog)
    = Raised (MemoryExceededError "hog" (py_max (py_max 0 (rss_mb 524288))
                                               (rss_mb 3145728)) 1) /\
  ticks (RunProcess_init "hog" [] None None sys_maxsize 1 hog) = 2%nat /\
  kills (RunProcess_init "hog" [] None None sys_maxsize 1 hog)
    = [100; 103; 102; 101].
Proof. vm_compute. repeat split. Qed.

(** C2 as it is worded fails: in [ghost] the second sample puts the peak at
    3 MB, above a ceiling of 1 MB, and the root has left when [kill_all]
    lists its descendants: the listing raises [NoSuchProcess], which
    [enforce_limits] swallows.  No process is signalled, no
    [MemoryExceededError] is raised, and the constructor returns an object
    whose peak is above the ceiling. *)
Lemma memory_error_lost_when_root_is_gone :
  ending (thread "hog" sys_maxsize 1 ghost) = Caught /\
  ticks (RunProcess_init "hog" [] None None sys_maxsize 1 ghost) = 2%nat /\
  kills (RunProcess_init "hog" [] None None sys_maxsize 1 ghost) = [] /\
  result (RunProcess_init "hog" [] None None sys_maxsize 1 ghost) = Returned /\
  (max_memory (object (RunProcess_init "hog" [] None None sys_maxsize 1 ghost))
   == 3)%Q /\
  (inject_Z 1
   < max_memory (object (RunProcess_init "hog" [] None None sys_maxsize 1 ghost)))%Q.
Proof. vm_compute. repeat split. Qed.

(** ** Killing the tree *)

(** C3, as the code has it: on a root that is still there when its
    descendants are listed, [kill_all] signals the descendants and then the
    root, each unless it has already left by itself, raises nothing whatever
    leaves during the loop, and returns, its assertion passed, with every
    process of the tree gone.  On a root that has left, the listing raises
    [NoSuchProcess] before any signal.  The watchdog raises a limit error
    only after a return of [kill_all], is never stuck in it and never fails
    its assertion. *)
Theorem kill_all_leaves_no_survivor
    (process : ptree) (race : list (list Z)) (tb : ptable) :
  (root_alive process race tb ->
   exists tb',
     kill_all process race tb = KillReturned tb' /\
     tree_dead process tb' /\
     (forall p, In p (pids process) ->
        In p (signalled tb') \/ In p (exited tb) \/ In p (concat race)) /\
     (forall p, In p (signalled tb') ->
        In p (signalled tb) \/ In p (pids process))) /\
  (~ root_alive process race tb ->
   kill_all process race tb = KillRaised NoSuchProcess) /\
  (forall tool max_time max_memory found st ps,
     match ending (enforce_limits tool max_time max_memory process race found st ps) with
     | LoopExit | Caught => True
     | Threw e =>
         limit_error e /\
         tree_dead process
           (procs (final (enforce_limits tool max_time max_memory
                            process race found st ps)))
     | Stuck => False
     end) /\
  (forall tool arguments read_stdout env max_time max_memory w r e,
     tree w = process -> races w = race ->
     watchdog (RunProcess_init tool arguments read_stdout env max_time max_memory w)
       = Some r ->
     ending r = Threw e ->
     limit_error e /\ tree_dead process (procs (final r))).
Proof.
  split; [apply kill_all_spec|]. split; [apply kill_all_gone_root|]. split.
  - intros tool max_time max_memory found st ps. unfold enforce_limits.
    destruct found; [apply loop_ending | exact I].
  - intros tool arguments read_stdout env max_time max_memory w r e <- <- Hr He.
    apply watchdog_is_thread in Hr as [_ ->].
    pose proof (thread_ending tool max_time max_memory w) as H.
    rewrite He in H. exact H.
Qed.

Lemma kill_all_leaves_no_survivor_witness :
  kill_all family [[]; [103]] no_procs
    = KillReturned (mkTable [100; 102; 101] [101; 102; 103; 100; 103]) /\
  tree_dead family (mkTable [100; 102; 101] [101; 102; 103; 100; 103]).
Proof.
  assert (Hroot : root_alive family [[]; [103]] no_procs).
  { unfold root_alive. simpl. tauto. }
  destruct (proj1 (kill_all_leaves_no_survivor family [[]; [103]] no_procs) Hroot)
    as (tb & E & Hd & _).
  vm_compute in E. injection E as <-. split; [reflexivity | exact Hd].
Defined.

(** C3 as it is worded fails: the root of [family] having left when the
    kill is decided, [kill_all] raises [NoSuchProcess] instead of tolerating
    it, signals none of the three descendants and waits for none: they still
    run.  In [late_leaver] this happens in the round that finds the time
    above the ceiling. *)
Lemma kill_all_raises_on_a_gone_root :
  kill_all family [[100]] no_procs = KillRaised NoSuchProcess /\
  ending (thread "sleep" 1 sys_maxsize late_leaver) = Caught /\
  (forall p, In p [101; 102; 103] ->
     status_of (procs (final (thread "sleep" 1 sys_maxsize late_leaver))) p
     = Running).
Proof.
  split; [reflexivity|]. split; [vm_compute; reflexivity|].
  assert (E : procs (final (thread "sleep" 1 sys_maxsize late_leaver)) = no_procs)
    by (vm_compute; reflexivity).
  rewrite E. intros p [<-|[<-|[<-|[]]]]; reflexivity.
Qed.

(** ** Precedence of the limit errors *)

(** C4: when the watchdog has raised a limit error and the exit status is
    not zero, the constructor, its relay finished, raises that limit error:
    [future.result()] comes before the test of the return code, and
    [ToolRuntimeError] is not raised. *)
Theorem limit_violation_precedes_exit_code
    (tool : string) (arguments : list string) (read_stdout : option callback)
    (env : option (list (string * string))) (max_time max_memory : Z)
    (w : world) (e : exn) :
  Popen (tool_path w) = None ->
  snd (relay read_stdout [] (readlines (output w))) = None ->
  ending (thread tool max_time max_memory w) = Threw e ->
  exit_status w <> 0 ->
  result (RunProcess_init tool arguments read_stdout env max_time max_memory w)
    = Raised e /\
  limit_error e /\
  result (RunProcess_init tool arguments read_stdout env max_time max_memory w)
    <> Raised (ToolRuntimeError tool arguments (exit_status w)).
Proof.
  intros Hs Hr He Hx.
  pose proof (thread_ending tool max_time max_memory w) as H. rewrite He in H.
  destruct H as [Hl _].
  rewrite (run_reports_watchdog tool arguments read_stdout env max_time max_memory w Hs Hr He).
  repeat split; [exact Hl|]. intros [= ->]. exact Hl.
Qed.

Lemma limit_violation_precedes_exit_code_witness :
  result (RunProcess_init "sleep" ["2"%string] (Some silent_callback) None
            1 sys_maxsize talker)
    = Raised (TimeExceededError "sleep"
                (_user_time (self (final (thread "sleep" 1 sys_maxsize talker)))) 1) /\
  exit_status talker = -9.
Proof.
  split; [|reflexivity].
  apply (@limit_violation_precedes_exit_code "sleep" ["2"%string]
           (Some silent_callback) None 1 sys_maxsize talker).
  - vm_compute. reflexivity.
  - vm_compute. reflexivity.
  - vm_compute. reflexivity.
  - vm_compute. discriminate.
Defined.

(** ** The relay *)

Lemma append_shift (cur : string) (c : ascii) (s : string) :
  ((cur ++ String c EmptyString) ++ s = cur ++ String c s)%string.
Proof.
  induction cur as [|a cur IH]; simpl; [reflexivity | now rewrite IH].
Qed.

Lemma readlines_from_line (l : string) :
  forall cur rest,
    newline_free l = true ->
    readlines_from cur (l ++ String newline rest)
      = (cur ++ l ++ String newline EmptyString)%string :: readlines_from EmptyString rest.
Proof.
  induction l as [|c l IH]; intros cur rest H; simpl in *.
  - reflexivity.
  - apply andb_prop in H as [Hc Hl]. apply negb_true_iff in Hc. rewrite Hc.
    rewrite IH by exact Hl. f_equal. apply append_shift.
Qed.

Lemma readlines_written (ls : list string) :
  Forall (fun l => newline_free l = true) ls ->
  readlines (written ls)
    = map (fun l => (l ++ String newline EmptyString)%string) ls.
Proof.
  unfold readlines. induction 1 as [|l ls Hl _ IH]; simpl; [reflexivity|].
  rewrite readlines_from_line by exact Hl. simpl. now rewrite IH.
Qed.

Lemma rstrip_line (l : string) :
  newline_free l = true ->
  rstrip (l ++ String newline EmptyString) = l.
Proof.
  induction l as [|c l IH]; intros H; simpl in *; [reflexivity|].
  apply andb_prop in H as [Hc Hl]. apply negb_true_iff in Hc.
  rewrite IH by exact Hl. destruct l; [now rewrite Hc | reflexivity].
Qed.

(** The relay hands each line over once, in order, and stops at the first
    invocation that raises. *)
Lemma relay_calls (f : callback) (lines : list string) :
  forall seen,
    (forall pre l post,
       map rstrip lines = pre ++ l :: post -> f (seen ++ pre) l = None) ->
    relay (Some f) seen lines = (seen ++ map rstrip lines, None).
Proof.
  induction lines as [|l lines IH]; intros seen H; simpl.
  - now rewrite app_nil_r.
  - rewrite <- (app_nil_r seen) at 1. rewrite (H [] (rstrip l) (map rstrip lines)) by reflexivity.
    rewrite IH.
    + now rewrite <- app_assoc.
    + intros pre l' post E. rewrite <- app_assoc. simpl.
      apply (H (rstrip l :: pre) l' post). simpl. now rewrite E.
Qed.

Lemma relay_prefix (f : callback) (lines : list string) :
  forall seen, exists n,
    fst (relay (Some f) seen lines) = seen ++ firstn n (map rstrip lines).
Proof.
  induction lines as [|l lines IH]; intros seen; simpl.
  - exists O. now rewrite app_nil_r.
  - destruct (f seen (rstrip l)).
    + exists 1%nat. reflexivity.
    + destruct (IH (seen ++ [rstrip l])) as (n & ->).
      exists (S n). now rewrite <- app_assoc.
Qed.

Lemma calls_are_relayed (tool : string) (arguments : list string)
    (read_stdout : option callback) (env : option (list (string * string)))
    (max_time max_memory : Z) (w : world) :
  Popen (tool_path w) = None ->
  calls (RunProcess_init tool arguments read_stdout env max_time max_memory w)
    = fst (relay read_stdout [] (readlines (output w))).
Proof.
  intros Hs. unfold RunProcess_init. rewrite Hs.
  destruct (snd (relay _ _ _)); destruct (ending _);
    try reflexivity; destruct (exit_status w =? 0); reflexivity.
Qed.

(** C5: a child that writes the [N] lines [ls] has the callback invoked on
    those lines, each without its newline, in the order written and none
    twice; with a callback that returns from each invocation, the callback
    is invoked exactly [N] times, on all of them, whatever the watchdog does
    meanwhile. *)
Theorem callback_receives_each_line_once
    (tool : string) (arguments : list string) (f : callback)
    (env : option (list (string * string))) (max_time max_mem : Z)
    (w : world) (ls : list string) :
  Popen (tool_path w) = None ->
  Forall (fun l => newline_free l = true) ls ->
  output w = written ls ->
  (exists n,
     calls (RunProcess_init tool arguments (Some f) env max_time max_mem w)
       = firstn n ls) /\
  ((forall pre l post, ls = pre ++ l :: post -> f pre l = None) ->
   calls (RunProcess_init tool arguments (Some f) env max_time max_mem w) = ls /\
   length (calls (RunProcess_init tool arguments (Some f) env max_time max_mem w))
     = length ls).
Proof.
  intros Hs Hnl Hout.
  assert (Hmap : map rstrip (readlines (output w)) = ls).
  { rewrite Hout, readlines_written by exact Hnl.
    rewrite map_map. rewrite <- (map_id ls) at 2.
    apply map_ext_in. intros l Hl. apply rstrip_line.
    rewrite Forall_forall in Hnl. now apply Hnl. }
  rewrite calls_are_relayed by exact Hs. split.
  - destruct (relay_prefix f (readlines (output w)) []) as (n & E).
    exists n. now rewrite E, Hmap.
  - intros Hf. rewrite relay_calls.
    + simpl. now rewrite Hmap.
    + intros pre l post E. simpl. apply (Hf pre l post). now rewrite <- Hmap.
Qed.

Lemma callback_receives_each_line_once_witness :
  calls (RunProcess_init "python" ["-c"; "for i in range(3): print(i)"]%string
           (Some silent_callback) None sys_maxsize sys_maxsize printer)
    = ["0"; "1"; "2"]%string /\
  length (calls (RunProcess_init "python" ["-c"; "for i in range(3): print(i)"]%string
                   (Some silent_callback) None sys_maxsize sys_maxsize printer))
    = 3%nat.
Proof.
  apply (@callback_receives_each_line_once "python"
           ["-c"; "for i in range(3): print(i)"]%string silent_callback None
           sys_maxsize sys_maxsize printer ["0"; "1"; "2"]%string).
  - reflexivity.
  - repeat constructor.
  - reflexivity.
  - reflexivity.
Defined.

(** A callback that raises ends the relay: the lines after it are not
    handed over. *)
Lemma raising_callback_ends_relay :
  calls (RunProcess_init "tool" [] (Some broken_callback) None 1 sys_maxsize
           (mkWorld Executable (written ["a"; "b"]%string) true
                    (repeat (quiet 0) 20) family [] (-9) 0 0))
    = ["a"%string].
Proof. vm_compute. reflexivity. Qed.

(** ** What the constructor leaves in the object *)

Section ObjectFacts.
Variables (tool : string) (arguments : list string).
Variables (read_stdout : option callback) (env : option (list (string * string))).
Variables (max_time max_memory : Z) (w : world).

Local Abbreviation run :=
  (RunProcess_init tool arguments read_stdout env max_time max_memory w).
Local Abbreviation wd := (thread tool max_time max_memory w).

Lemma thread_keeps_returncode : returncode (self (final wd)) = -1.
Proof.
  unfold thread, enforce_limits. destruct (pid_found w); [|reflexivity].
  now rewrite loop_keeps_returncode.
Qed.

(** No path of the constructor assigns [self.returncode]. *)
Lemma returncode_never_assigned : returncode (object run) = -1.
Proof.
  pose proof thread_keeps_returncode as H.
  unfold RunProcess_init. destruct (Popen (tool_path w)); [reflexivity|].
 
  destruct (snd (relay _ _ _)); destruct (ending wd);
    try destruct (exit_status w =? 0); simpl; exact H.
Qed.

Lemma run_returned_inv :
  result run = Returned ->
  Popen (tool_path w) = None /\
  snd (relay read_stdout [] (readlines (output w))) = None /\
  (forall e, ending wd <> Threw e) /\
  exit_status w = 0 /\
  object run =
    set_user_time (perf_counter_after w (asleep (final wd)) - t_before w)
      (self (final wd)).
Proof.
  unfold RunProcess_init. destruct (Popen (tool_path w)); [discriminate|].
 
  destruct (snd (relay _ _ _)); destruct (ending wd);
    try discriminate;
    destruct (exit_status w =? 0) eqn:E; try discriminate;
    apply Z.eqb_eq in E; intros _; repeat split; auto; discriminate.
Qed.
End ObjectFacts.

(** C6: for a child that exits with status 0 under both ceilings the
    constructor returns; the object then holds the wall-clock time and the
    peak tracked by the watchdog, but its [returncode] attribute is still the
    class default -1, not the exit status. *)
Theorem clean_exit_leaves_returncode_unset
    (tool : string) (arguments : list string) (read_stdout : option callback)
    (env : option (list (string * string))) (max_time max_mem : Z) (w : world) :
  Popen (tool_path w) = None ->
  snd (relay read_stdout [] (readlines (output w))) = None ->
  (forall e, ending (thread tool max_time max_mem w) <> Threw e) ->
  exit_status w = 0 ->
  result (RunProcess_init tool arguments read_stdout env max_time max_mem w)
    = Returned /\
  user_time (object (RunProcess_init tool arguments read_stdout env
                       max_time max_mem w))
    = (perf_counter_after w (asleep (final (thread tool max_time max_mem w)))
       - t_before w)%Q /\
  max_memory (object (RunProcess_init tool arguments read_stdout env
                        max_time max_mem w))
    = _max_memory_used (self (final (thread tool max_time max_mem w))) /\
  returncode (object (RunProcess_init tool arguments read_stdout env
                        max_time max_mem w)) = -1 /\
  returncode (object (RunProcess_init tool arguments read_stdout env
                        max_time max_mem w)) <> exit_status w.
Proof.
  intros Hs Hr He Hx.
  destruct (run_natural_exit tool arguments read_stdout env max_time max_mem w
              Hs Hr He) as [Hres Hobj].
  rewrite Hx in Hres. simpl in Hres.
  pose proof (returncode_never_assigned tool arguments read_stdout env
                max_time max_mem w) as Hrc.
  repeat split; try assumption.
  - now rewrite Hobj.
  - now rewrite Hobj.
  - rewrite Hrc, Hx. discriminate.
Qed.

Lemma clean_exit_leaves_returncode_unset_witness :
  result (RunProcess_init "python" ["-c"; "for i in range(3): print(i)"]%string
            None None sys_maxsize sys_maxsize printer) = Returned /\
  exit_status printer = 0 /\
  returncode (object (RunProcess_init "python"
                        ["-c"; "for i in range(3): print(i)"]%string
                        None None sys_maxsize sys_maxsize printer)) = -1.
Proof.
  destruct (@clean_exit_leaves_returncode_unset "python"
              ["-c"; "for i in range(3): print(i)"]%string None None
              sys_maxsize sys_maxsize printer) as (H1 & _ & _ & H4 & _).
  - reflexivity.
  - vm_compute. reflexivity.
  - intros e. vm_compute. discriminate.
  - reflexivity.
  - split; [exact H1 | split; [reflexivity | exact H4]].
Defined.

(** The older variant does store the exit status, and the polled time. *)
Lemma legacy_clean_exit_sets_returncode
    (tool : string) (arguments : list string)
    (env : option (list (string * string))) (max_time max_memory : Z) (w : world) :
  Popen (tool_path w) = None ->
  (forall e, ending (thread tool max_time max_memory w) <> Threw e) ->
  exit_status w = 0 ->
  result (Legacy.RunProcess_init tool arguments env max_time max_memory w)
    = Returned /\
  returncode (object (Legacy.RunProcess_init tool arguments env
                        max_time max_memory w)) = 0 /\
  stdout (object (Legacy.RunProcess_init tool arguments env
                    max_time max_memory w)) = output w /\
  user_time (object (Legacy.RunProcess_init tool arguments env
                       max_time max_memory w))
    = _user_time (self (final (thread tool max_time max_memory w))).
Proof.
  intros Hs He Hx. unfold Legacy.RunProcess_init. rewrite Hs.
  pose proof (thread_ending tool max_time max_memory w) as H.
  destruct (ending (thread tool max_time max_memory w)) eqn:E;
    try contradiction; try (exfalso; eapply He; reflexivity);
    rewrite Hx; simpl; auto.
Qed.

Lemma legacy_printer :
  result (Legacy.RunProcess_init "python" [] None sys_maxsize sys_maxsize printer)
    = Returned /\
  returncode (object (Legacy.RunProcess_init "python" [] None
                        sys_maxsize sys_maxsize printer)) = 0 /\
  (user_time (object (Legacy.RunProcess_init "python" [] None
                        sys_maxsize sys_maxsize printer)) == 3 # 10)%Q.
Proof. vm_compute. repeat split. Qed.

(** ** The reported time *)

(** C7: when the child ends by itself, the [_user_time] left in the object
    is the difference of the two readings of [perf_counter], the first one
    taken before the spawn: the time outside the sleeps plus the time really
    slept, whatever total the rounds had accumulated. *)
Theorem user_time_is_wall_clock
    (tool : string) (arguments : list string) (read_stdout : option callback)
    (env : option (list (string * string))) (max_time max_memory : Z) (w : world) :
  Popen (tool_path w) = None ->
  snd (relay read_stdout [] (readlines (output w))) = None ->
  (forall e, ending (thread tool max_time max_memory w) <> Threw e) ->
  user_time (object (RunProcess_init tool arguments read_stdout env
                       max_time max_memory w))
    = (perf_counter_after w (asleep (final (thread tool max_time max_memory w)))
       - t_before w)%Q /\
  (user_time (object (RunProcess_init tool arguments read_stdout env
                        max_time max_memory w))
   == overhead w + asleep (final (thread tool max_time max_memory w)))%Q.
Proof.
  intros Hs Hr He.
  destruct (run_natural_exit tool arguments read_stdout env max_time max_memory w
              Hs Hr He) as [_ Hobj].
  rewrite Hobj. unfold user_time, perf_counter_after. simpl.
  split; [reflexivity | ring].
Qed.

Lemma user_time_is_wall_clock_witness :
  (user_time (object (RunProcess_init "python" [] None None
                        sys_maxsize sys_maxsize printer)) == 46 # 100)%Q /\
  (_user_time (self (final (thread "python" sys_maxsize sys_maxsize printer)))
   == 3 # 10)%Q.
Proof.
  destruct (@user_time_is_wall_clock "python" [] None None
              sys_maxsize sys_maxsize printer) as [_ H].
  - reflexivity.
  - vm_compute. reflexivity.
  - intros e. vm_compute. discriminate.
  - split; [rewrite H|]; vm_compute; reflexivity.
Defined.

(** ** A tool that cannot be spawned *)

(** C8, as the code has it: when the tool path names no file, the
    constructor raises [ToolNotFoundError] with the tool name; no watchdog
    was submitted, no round ran, nothing was killed and the callback was not
    invoked. *)
Theorem missing_tool_raises_ToolNotFoundError
    (tool : string) (arguments : list string) (read_stdout : option callback)
    (env : option (list (string * string))) (max_time max_mem : Z) (w : world) :
  tool_path w = Missing ->
  result (RunProcess_init tool arguments read_stdout env max_time max_mem w)
    = Raised (ToolNotFoundError tool) /\
  watchdog (RunProcess_init tool arguments read_stdout env max_time max_mem w)
    = None /\
  ticks (RunProcess_init tool arguments read_stdout env max_time max_mem w) = O /\
  kills (RunProcess_init tool arguments read_stdout env max_time max_mem w) = [] /\
  calls (RunProcess_init tool arguments read_stdout env max_time max_mem w) = [].
Proof.
  intros H. unfold ticks, kills, RunProcess_init. rewrite H. simpl.
  repeat split.
Qed.

Lemma missing_tool_raises_ToolNotFoundError_witness :
  result (RunProcess_init "nowhere" [] (Some silent_callback) None
            sys_maxsize sys_maxsize absent)
    = Raised (ToolNotFoundError "nowhere") /\
  calls (RunProcess_init "nowhere" [] (Some silent_callback) None
           sys_maxsize sys_maxsize absent) = [].
Proof.
  destruct (@missing_tool_raises_ToolNotFoundError "nowhere" []
              (Some silent_callback) None sys_maxsize sys_maxsize absent)
    as (H1 & _ & _ & _ & H5).
  - reflexivity.
  - split; [exact H1 | exact H5].
Defined.

(** C8 as it is worded fails for a tool that exists and is not runnable:
    the spawn raises [PermissionError], which the handler lets through. *)
Lemma unrunnable_tool_raises_PermissionError :
  tool_path forbidden = NotExecutable /\
  result (RunProcess_init "data.txt" [] (Some silent_callback) None
            sys_maxsize sys_maxsize forbidden)
    = Raised PermissionError /\
  result (RunProcess_init "data.txt" [] (Some silent_callback) None
            sys_maxsize sys_maxsize forbidden)
    <> Raised (ToolNotFoundError "data.txt").
Proof.
  split; [reflexivity|]. split; [reflexivity|]. discriminate.
Qed.

(** ** Monotone accounting *)

(** C9: with a clock that does not run backwards and sleeps that last at
    least the interval asked for, the two totals never decrease from one
    round of the watchdog to a later one, and what is finally reported is
    never below a total seen in a round: not the time and peak of the object
    returned, not the value carried by a limit error. *)
Theorem totals_never_decrease
    (tool : string) (arguments : list string) (read_stdout : option callback)
    (env : option (list (string * string))) (max_time max_mem : Z) (w : world)
    (r : wd_run) :
  clock_sane w ->
  watchdog (RunProcess_init tool arguments read_stdout env max_time max_mem w)
    = Some r ->
  StronglySorted le_totals (fresh :: rounds r) /\
  (result (RunProcess_init tool arguments read_stdout env max_time max_mem w)
     = Returned ->
   Forall (fun s =>
             (_user_time (self s)
              <= user_time (object (RunProcess_init tool arguments read_stdout
                                      env max_time max_mem w)))%Q /\
             (_max_memory_used (self s)
              <= max_memory (object (RunProcess_init tool arguments read_stdout
                                       env max_time max_mem w)))%Q)
          (fresh :: rounds r)) /\
  (forall n v c,
     ending r = Threw (TimeExceededError n v c) ->
     Forall (fun s => (_user_time (self s) <= v)%Q) (fresh :: rounds r)) /\
  (forall n v c,
     ending r = Threw (MemoryExceededError n v c) ->
     Forall (fun s => (_max_memory_used (self s) <= v)%Q) (fresh :: rounds r)).
Proof.
  intros [Hsleep Hover] Hr.
  apply watchdog_is_thread in Hr as [Hs ->].
  assert (Hloop :
    StronglySorted le_totals (fresh :: rounds (thread tool max_time max_mem w)) /\
    Forall (fun s => le_totals s (final (thread tool max_time max_mem w)))
           (fresh :: rounds (thread tool max_time max_mem w)) /\
    (asleep fresh <= asleep (final (thread tool max_time max_mem w)))%Q /\
    (_user_time (self (final (thread tool max_time max_mem w)))
     - asleep (final (thread tool max_time max_mem w))
     <= _user_time (self fresh) - asleep fresh)%Q).
  { unfold thread, enforce_limits. destruct (pid_found w).
    - now apply loop_totals.
    - simpl. repeat split; repeat constructor; lra. }
  destruct Hloop as (Hsorted & Hfinal & Hasleep & Hpolled).
  split; [exact Hsorted|]. split; [|split].
  - intros Hret.
    apply run_returned_inv in Hret as (_ & _ & _ & _ & ->).
    eapply Forall_impl; [|exact Hfinal].
    intros s [Ht Hm]. unfold user_time, max_memory, perf_counter_after. simpl in *.
    split; [lra | exact Hm].
  - intros n v c He.
    destruct (thread_threw _ _ _ _ He) as [[E _]|[E _]]; [discriminate|].
    injection E as _ -> _.
    eapply Forall_impl; [|exact Hfinal]. intros s [Ht _]. exact Ht.
  - intros n v c He.
    destruct (thread_threw _ _ _ _ He) as [[E _]|[E _]]; [|discriminate].
    injection E as _ -> _.
    eapply Forall_impl; [|exact Hfinal]. intros s [_ Hm]. exact Hm.
Qed.

Lemma printer_clock_sane : clock_sane printer.
Proof.
  split; [repeat constructor; simpl; vm_compute; discriminate|].
  vm_compute. discriminate.
Qed.

Lemma totals_never_decrease_witness :
  StronglySorted le_totals
    (fresh :: rounds (thread "python" sys_maxsize sys_maxsize printer)).
Proof.
  apply (@totals_never_decrease "python" [] None None sys_maxsize sys_maxsize
           printer (thread "python" sys_maxsize sys_maxsize printer)).
  - exact printer_clock_sane.
  - vm_compute. reflexivity.
Defined.

(** ** Errors of the callback *)

Lemma callback_error_reported (tool : string) (arguments : list string)
    (f : callback) (env : option (list (string * string)))
    (max_time max_mem : Z) (w : world) (e : exn) :
  Popen (tool_path w) = None ->
  snd (relay (Some f) [] (readlines (output w))) = Some e ->
  ending (thread tool max_time max_mem w) <> LoopExit ->
  result (RunProcess_init tool arguments (Some f) env max_time max_mem w)
    = Raised (except_FileNotFoundError tool e).
Proof.
  intros Hs Hr He. unfold RunProcess_init. rewrite Hs, Hr.
  pose proof (thread_ending tool max_time max_mem w) as H.
  destruct (ending (thread tool max_time max_mem w));
    try contradiction; reflexivity.
Qed.

(** C10: the handler of the spawn failure spans the whole body, so a
    [FileNotFoundError] raised by the caller's callback, once the watchdog
    thread has ended, leaves the constructor as [ToolNotFoundError] naming
    the tool; and there is such an execution, with a tool that spawned. *)
Theorem callback_FileNotFoundError_becomes_ToolNotFoundError :
  (forall tool arguments (f : callback) env max_time max_mem w,
     Popen (tool_path w) = None ->
     snd (relay (Some f) [] (readlines (output w))) = Some FileNotFoundError ->
     ending (thread tool max_time max_mem w) <> LoopExit ->
     result (RunProcess_init tool arguments (Some f) env max_time max_mem w)
       = Raised (ToolNotFoundError tool)) /\
  (exists w f,
     Popen (tool_path w) = None /\
     tool_path w = Executable /\
     calls (RunProcess_init "tool" [] (Some f) None 1 sys_maxsize w)
       = ["hello"%string] /\
     result (RunProcess_init "tool" [] (Some f) None 1 sys_maxsize w)
       = Raised (ToolNotFoundError "tool")).
Proof.
  split.
  - intros. now rewrite callback_error_reported with (e := FileNotFoundError).
  - exists talker, broken_callback. vm_compute. repeat split.
Qed.


(** * Further properties of the code *)

(** ** More on the watchdog *)

Section WatchdogMore.
Variables (tool : string) (max_time max_memory : Z).
Variables (process : ptree) (race : list (list Z)).

Local Abbreviation round := (tick tool max_time max_memory process race).
Local Abbreviation run := (loop tool max_time max_memory process race).

(** A round goes on only under both ceilings. *)
Lemma tick_continue_inv (st st' : wstate) (p : poll) :
  round st p = Continue st' ->
  exists rss,
    sample p = Rss rss /\
    (py_max (_max_memory_used (self st)) (rss_mb rss) <= inject_Z max_memory)%Q /\
    (_user_time (self st) <= inject_Z max_time)%Q /\
    st' = mkW (set_user_time (_user_time (self st) + interval)
                 (set_max_memory_used
                    (py_max (_max_memory_used (self st)) (rss_mb rss)) (self st)))
              (procs st) (asleep st + slept p).
Proof.
  destruct p as [[rss|] d]; unfold tick; simpl; [|discriminate].
  destruct (py_gt _ (inject_Z max_memory)) eqn:Em.
  - match goal with |- context [kill_then_raise _ _ ?e ?s] =>
      destruct (@kill_then_raise_cases process race e s)
        as [(_ & tb & -> & _)|(_ & ->)] end; discriminate.
  - destruct (py_gt _ (inject_Z max_time)) eqn:Et.
    + match goal with |- context [kill_then_raise _ _ ?e ?s] =>
        destruct (@kill_then_raise_cases process race e s)
          as [(_ & tb & -> & _)|(_ & ->)] end; discriminate.
    + intros [= <-]. exists rss. apply py_gt_false in Em. apply py_gt_false in Et.
      repeat split; assumption.
Qed.

(** Rounds that stay under both ceilings all go through. *)
Lemma loop_quiet (ps : list poll) :
  forall st,
    Forall (within_ceiling max_memory) ps ->
    (_max_memory_used (self st) <= inject_Z max_memory)%Q ->
    (ps = [] \/
     (_user_time (self st) + accumulated (length ps) - interval
      <= inject_Z max_time)%Q) ->
    ending (run st ps) = LoopExit /\
    length (rounds (run st ps)) = length ps /\
    (_user_time (self (final (run st ps)))
     == _user_time (self st) + accumulated (length ps))%Q /\
    procs (final (run st ps)) = procs st /\
    stdout (self (final (run st ps))) = stdout (self st).
Proof.
  induction ps as [|[[rss|] d] ps IH]; intros st Hq Hpeak Htime.
  - simpl. pose proof accumulated_0. repeat split; auto. lra.
  - pose proof (Forall_inv Hq) as Hq1. unfold within_ceiling in Hq1. simpl in Hq1.
    assert (Hm : (py_max (_max_memory_used (self st)) (rss_mb rss)
                  <= inject_Z max_memory)%Q).
    { unfold py_max. destruct (py_gt _ _); assumption. }
    pose proof (accumulated_S (length ps)) as HS.
    pose proof (accumulated_nonneg (length ps)) as H0.
    destruct Htime as [Htime|Htime]; [discriminate|]. simpl length in Htime.
    assert (Ht : (_user_time (self st) <= inject_Z max_time)%Q) by lra.
    simpl. rewrite (@tick_continue tool max_time max_memory process race st rss d Hm Ht).
    simpl.
    match goal with |- context [run ?s ps] =>
      destruct (IH s) as (He & Hl & Hu & Hp & Ho) end.
    + now apply Forall_inv_tail in Hq.
    + exact Hm.
    + simpl. destruct ps as [|q ps]; [now left | right].
      pose proof (accumulated_S (length (q :: ps))). simpl length in *. lra.
    + simpl in *. split; [exact He|]. split; [now rewrite Hl|].
      split; [lra|]. split; [exact Hp | exact Ho].
  - apply Forall_inv in Hq. contradiction.
Qed.


(** The thread signals nothing unless it ends with an exception. *)
Lemma loop_no_kill (ps : list poll) :
  forall st,
    (forall e, ending (run st ps) <> Threw e) ->
    procs (final (run st ps)) = procs st.
Proof.
  induction ps as [|p ps IH]; intros st H; simpl in *; [reflexivity|].
  pose proof (@tick_cases tool max_time max_memory process race st p) as Hc.
  destruct (round st p) as [st'|how st'] eqn:E; simpl in *.
  - rewrite IH by exact H. destruct Hc as (rss & _ & ->). reflexivity.
  - destruct how; try contradiction.
    + destruct Hc as [Hp _]. exact Hp.
    + exfalso. eapply H. reflexivity.
Qed.

(** The polled time never passes the ceiling by more than one interval. *)
Lemma loop_time_overshoot (ps : list poll) :
  forall st,
    (_user_time (self st) <= inject_Z max_time + interval)%Q ->
    (_user_time (self (final (run st ps))) <= inject_Z max_time + interval)%Q.
Proof.
  induction ps as [|p ps IH]; intros st H; simpl; [exact H|].
  pose proof (@tick_cases tool max_time max_memory process race st p) as Hc.
  destruct (round st p) as [st'|how st'] eqn:E; simpl.
  - apply IH. apply tick_continue_inv in E as (rss & _ & _ & Ht & ->). simpl. lra.
  - destruct how; try contradiction.
    + destruct Hc as (_ & _ & [->|(rss & _ & ->)]); simpl; exact H.
    + destruct Hc as (rss & _ & -> & _). simpl. exact H.
Qed.

(** The peak is the initial one or one of the samples, and when the loop
    runs to its exit it is above every sample. *)
Lemma loop_peak (ps : list poll) :
  forall st,
    ((_max_memory_used (self st) <= _max_memory_used (self (final (run st ps))))%Q) /\
    (_max_memory_used (self (final (run st ps))) = _max_memory_used (self st) \/
     exists p, In p ps /\
               _max_memory_used (self (final (run st ps))) = sample_mb p) /\
    (ending (run st ps) = LoopExit ->
     Forall (fun p => sample_mb p
                      <= _max_memory_used (self (final (run st ps))))%Q ps).
Proof.
  assert (Hor : forall a b, py_max a b = a \/ py_max a b = b).
  { intros a b. unfold py_max. destruct (py_gt b a); auto. }
  induction ps as [|p ps IH]; intros st; simpl.
  - repeat split; auto. lra.
  - pose proof (@tick_cases tool max_time max_memory process race st p) as Hc.
    destruct (round st p) as [st'|how st'] eqn:E; simpl.
    + destruct Hc as (rss & Hp & ->).
      match goal with |- context [run ?s ps] =>
        destruct (IH s) as (Hle & Heq & Hall) end.
      simpl in *.
      pose proof (py_max_l (_max_memory_used (self st)) (rss_mb rss)).
      pose proof (py_max_r (_max_memory_used (self st)) (rss_mb rss)).
      assert (Hs : sample_mb p = rss_mb rss) by (unfold sample_mb; now rewrite Hp).
      repeat split.
      * lra.
      * destruct Heq as [Heq|(q & Hq & Heq)].
        -- rewrite Heq. destruct (Hor (_max_memory_used (self st)) (rss_mb rss)) as [->| ->];
             [now left | right; exists p; split; [now left | now rewrite Hs]].
        -- right. exists q. split; [now right | exact Heq].
      * intros He. constructor; [rewrite Hs; lra | now apply Hall].
    + destruct how; try contradiction.
      * destruct Hc as (_ & _ & [->|(rss & Hp & ->)]);
          [repeat split; try lra; [now left | discriminate]|].
        simpl.
        pose proof (py_max_l (_max_memory_used (self st)) (rss_mb rss)).
        assert (Hs : sample_mb p = rss_mb rss) by (unfold sample_mb; now rewrite Hp).
        repeat split; [lra | | discriminate].
        destruct (Hor (_max_memory_used (self st)) (rss_mb rss)) as [->| ->];
          [now left | right; exists p; split; [now left | now rewrite Hs]].
      * destruct Hc as (rss & Hp & -> & _). simpl.
        pose proof (py_max_l (_max_memory_used (self st)) (rss_mb rss)).
        assert (Hs : sample_mb p = rss_mb rss) by (unfold sample_mb; now rewrite Hp).
        repeat split; [lra | | discriminate].
        destruct (Hor (_max_memory_used (self st)) (rss_mb rss)) as [->| ->];
          [now left | right; exists p; split; [now left | now rewrite Hs]].
Qed.
End WatchdogMore.

(** ** More on the supervisor *)

Section SupervisorMore.
Variables (tool : string) (arguments : list string).
Variables (read_stdout : option callback) (env : option (list (string * string))).
Variables (max_time max_mem : Z) (w : world).

Local Abbreviation run :=
  (RunProcess_init tool arguments read_stdout env max_time max_mem w).
Local Abbreviation wd := (thread tool max_time max_mem w).

Lemma thread_no_kill :
  (forall e, ending wd <> Threw e) -> procs (final wd) = no_procs.
Proof.
  unfold thread, enforce_limits. destruct (pid_found w); [|reflexivity].
  intros H. now rewrite loop_no_kill.
Qed.

Lemma thread_time_overshoot :
  0 <= max_time ->
  (_user_time (self (final wd)) <= inject_Z max_time + interval)%Q.
Proof.
  intros H. rewrite Zle_Qle in H.
  unfold thread, enforce_limits.
  destruct (pid_found w); [apply loop_time_overshoot|];
    simpl; unfold interval; change (inject_Z 0) with 0%Q in H; lra.
Qed.

Lemma thread_peak :
  (ending wd = LoopExit ->
   Forall (fun p => sample_mb p <= _max_memory_used (self (final wd)))%Q (polls w)) /\
  (_max_memory_used (self (final wd)) = 0%Q \/
   exists p, In p (polls w) /\ _max_memory_used (self (final wd)) = sample_mb p).
Proof.
  unfold thread, enforce_limits. destruct (pid_found w).
  - destruct (loop_peak tool max_time max_mem (tree w) (races w) (polls w) fresh)
      as (_ & Heq & Hall).
    split; [exact Hall | exact Heq].
  - simpl. split; [discriminate | now left].
Qed.

(** With a relay that ran to the end, an error of the constructor that is a
    limit error is the one of the thread. *)
Lemma limit_error_is_from_thread (e : exn) :
  snd (relay read_stdout [] (readlines (output w))) = None ->
  result run = Raised e ->
  limit_error e ->
  Popen (tool_path w) = None /\ ending wd = Threw e.
Proof.
  intros Hr He Hl. unfold RunProcess_init in He.
  destruct (Popen (tool_path w)) as [e0|] eqn:Hs.
  - simpl in He. injection He as <-.
    destruct (tool_path w); simpl in Hs; try discriminate;
      injection Hs as <-; contradiction.
  - split; [reflexivity|]. rewrite Hr in He.
    pose proof (thread_ending tool max_time max_mem w) as Ht.
    destruct (ending wd) as [| |e1|] eqn:E; try contradiction.
    + destruct (exit_status w =? 0); simpl in He; [discriminate|].
      injection He as <-. contradiction.
    + destruct (exit_status w =? 0); simpl in He; [discriminate|].
      injection He as <-. contradiction.
    + simpl in He. destruct Ht as [Hl1 _].
      rewrite (except_limit_error tool e1 Hl1) in He. now injection He as <-.
Qed.
End SupervisorMore.

(** X1: when the child ends by itself with a status other than zero, the
    constructor, its relay finished and no ceiling passed, raises
    [ToolRuntimeError] with the tool, the arguments and the status, and has
    signalled no process. *)
Theorem nonzero_exit_raises_ToolRuntimeError
    (tool : string) (arguments : list string) (read_stdout : option callback)
    (env : option (list (string * string))) (max_time max_mem : Z) (w : world) :
  Popen (tool_path w) = None ->
  snd (relay read_stdout [] (readlines (output w))) = None ->
  (forall e, ending (thread tool max_time max_mem w) <> Threw e) ->
  exit_status w <> 0 ->
  result (RunProcess_init tool arguments read_stdout env max_time max_mem w)
    = Raised (ToolRuntimeError tool arguments (exit_status w)) /\
  kills (RunProcess_init tool arguments read_stdout env max_time max_mem w) = [].
Proof.
  intros Hs Hr He Hx.
  destruct (run_natural_exit tool arguments read_stdout env max_time max_mem w
              Hs Hr He) as [Hres _].
  apply Z.eqb_neq in Hx. rewrite Hx in Hres. split; [exact Hres|].
  unfold kills. rewrite (watchdog_submitted tool arguments read_stdout env
                           max_time max_mem w Hs).
  now rewrite thread_no_kill.
Qed.

Lemma nonzero_exit_raises_ToolRuntimeError_witness :
  result (RunProcess_init "tool" ["-x"%string] (Some silent_callback) None
            sys_maxsize sys_maxsize crasher)
    = Raised (ToolRuntimeError "tool" ["-x"%string] 3) /\
  kills (RunProcess_init "tool" ["-x"%string] (Some silent_callback) None
           sys_maxsize sys_maxsize crasher) = [].
Proof.
  apply (@nonzero_exit_raises_ToolRuntimeError "tool" ["-x"%string]
           (Some silent_callback) None sys_maxsize sys_maxsize crasher).
  - reflexivity.
  - vm_compute. reflexivity.
  - intros e. vm_compute. discriminate.
  - vm_compute. discriminate.
Defined.

(** X2: with a relay that ran to the end, what the constructor does tells
    what happened.  It returns only for a spawned tool that exited with
    status 0, the watchdog having raised nothing.  [ToolRuntimeError] carries
    the tool, the arguments and the exit status, which is not zero, and is
    raised only when the watchdog raised nothing.  [ToolNotFoundError] names
    the tool and comes from a [FileNotFoundError] of the spawn, before any
    thread is started: the file is missing, or it is a script whose
    interpreter is.  A limit error is the one the watchdog raised, after the
    tree was killed, and carries the tool, a value above the ceiling and the
    ceiling.  A [PermissionError] or an [OSError] is the one of the spawn. *)
Theorem outcomes_classified
    (tool : string) (arguments : list string) (read_stdout : option callback)
    (env : option (list (string * string))) (max_time max_mem : Z) (w : world) :
  snd (relay read_stdout [] (readlines (output w))) = None ->
  (result (RunProcess_init tool arguments read_stdout env max_time max_mem w)
     = Returned ->
   Popen (tool_path w) = None /\ exit_status w = 0 /\
   forall e, ending (thread tool max_time max_mem w) <> Threw e) /\
  (forall t a c,
     result (RunProcess_init tool arguments read_stdout env max_time max_mem w)
       = Raised (ToolRuntimeError t a c) ->
     Popen (tool_path w) = None /\
     t = tool /\ a = arguments /\ c = exit_status w /\ c <> 0 /\
     forall e, ending (thread tool max_time max_mem w) <> Threw e) /\
  (forall n,
     result (RunProcess_init tool arguments read_stdout env max_time max_mem w)
       = Raised (ToolNotFoundError n) ->
     n = tool /\
     (tool_path w = Missing \/ tool_path w = NoInterpreter) /\
     watchdog (RunProcess_init tool arguments read_stdout env max_time max_mem w)
       = None) /\
  (forall e,
     result (RunProcess_init tool arguments read_stdout env max_time max_mem w)
       = Raised e ->
     limit_error e ->
     Popen (tool_path w) = None /\
     ending (thread tool max_time max_mem w) = Threw e /\
     tree_dead (tree w) (procs (final (thread tool max_time max_mem w))) /\
     match e with
     | TimeExceededError n v c =>
         n = tool /\ c = max_time /\ (inject_Z max_time < v)%Q
     | MemoryExceededError n v c =>
         n = tool /\ c = max_mem /\ (inject_Z max_mem < v)%Q
     | _ => True
     end) /\
  (forall e,
     result (RunProcess_init tool arguments read_stdout env max_time max_mem w)
       = Raised e ->
     e = PermissionError \/ e = OSError ->
     Popen (tool_path w) = Some e /\
     watchdog (RunProcess_init tool arguments read_stdout env max_time max_mem w)
       = None).
Proof.
  intros Hr.
  destruct (Popen (tool_path w)) as [e0|] eqn:Hs.
  - assert (Hx : result (RunProcess_init tool arguments read_stdout env
                           max_time max_mem w)
                 = Raised (except_FileNotFoundError tool e0) /\
                 watchdog (RunProcess_init tool arguments read_stdout env
                             max_time max_mem w) = None).
    { unfold RunProcess_init. rewrite Hs. now split. }
    destruct Hx as [Hx Hw]. rewrite Hx, Hw.
    split; [discriminate|].
    split; [intros t a c H; destruct (tool_path w); simpl in Hs; try discriminate;
            injection Hs as <-; discriminate|].
    split; [|split].
    + intros n H. destruct (tool_path w); simpl in Hs; try discriminate;
        injection Hs as <-; simpl in H; try discriminate;
        injection H as <-; auto.
    + intros e H Hl. destruct (tool_path w); simpl in Hs; try discriminate;
        injection Hs as <-; simpl in H; injection H as <-; contradiction.
    + intros e H He. destruct (tool_path w); simpl in Hs; try discriminate;
        injection Hs as <-; simpl in H; injection H as <-;
        destruct He as [He|He]; try discriminate; now split.
  - pose proof (thread_ending tool max_time max_mem w) as Ht.
    assert (Hnat : (forall e, ending (thread tool max_time max_mem w) <> Threw e) ->
                   result (RunProcess_init tool arguments read_stdout env
                             max_time max_mem w)
                   = (if exit_status w =? 0 then Returned
                      else Raised (ToolRuntimeError tool arguments (exit_status w)))).
    { intros H.
      now destruct (run_natural_exit tool arguments read_stdout env
                      max_time max_mem w Hs Hr H). }
    destruct (ending (thread tool max_time max_mem w)) as [| |e1|] eqn:E;
      try contradiction.
    + rewrite Hnat by (intros e; discriminate).
      destruct (exit_status w =? 0) eqn:Ex.
      * apply Z.eqb_eq in Ex.
        split; [intros _; repeat split; auto; intros e; discriminate|].
        split; [discriminate|]. split; [discriminate|].
        split; [discriminate|]. discriminate.
      * apply Z.eqb_neq in Ex.
        split; [discriminate|].
        split; [intros t a c [= <- <- <-]; repeat split; auto; intros e; discriminate|].
        split; [discriminate|].
        split; [intros e [= <-] []|].
        intros e [= <-] [H|H]; discriminate.
    + rewrite Hnat by (intros e; discriminate).
      destruct (exit_status w =? 0) eqn:Ex.
      * apply Z.eqb_eq in Ex.
        split; [intros _; repeat split; auto; intros e; discriminate|].
        split; [discriminate|]. split; [discriminate|].
        split; [discriminate|]. discriminate.
      * apply Z.eqb_neq in Ex.
        split; [discriminate|].
        split; [intros t a c [= <- <- <-]; repeat split; auto; intros e; discriminate|].
        split; [discriminate|].
        split; [intros e [= <-] []|].
        intros e [= <-] [H|H]; discriminate.
    + destruct Ht as [Hl Hd].
      rewrite (run_reports_watchdog tool arguments read_stdout env max_time max_mem w
                 Hs Hr E).
      split; [discriminate|].
      split; [intros t a c [= ->]; contradiction|].
      split; [intros n [= ->]; contradiction|].
      split.
      * intros e [= <-] _. repeat split; auto.
        destruct (thread_threw tool max_time max_mem w E) as [[-> H]|[-> H]];
          repeat split; auto.
      * intros e [= <-] [->| ->]; contradiction.
Qed.

Lemma outcomes_classified_witness :
  result (RunProcess_init "tool" ["-x"%string] (Some silent_callback) None
            sys_maxsize sys_maxsize crasher)
    = Raised (ToolRuntimeError "tool" ["-x"%string] 3) /\
  Popen (tool_path crasher) = None /\
  3 = exit_status crasher /\
  forall e, ending (thread "tool" sys_maxsize sys_maxsize crasher) <> Threw e.
Proof.
  assert (Hr : snd (relay (Some silent_callback) [] (readlines (output crasher)))
               = None) by (vm_compute; reflexivity).
  assert (Hx : result (RunProcess_init "tool" ["-x"%string] (Some silent_callback)
                         None sys_maxsize sys_maxsize crasher)
               = Raised (ToolRuntimeError "tool" ["-x"%string] 3))
    by (vm_compute; reflexivity).
  destruct (proj1 (proj2 (@outcomes_classified "tool" ["-x"%string]
                            (Some silent_callback) None
                            sys_maxsize sys_maxsize crasher Hr))
              "tool"%string ["-x"%string] 3 Hx) as (Hs & _ & _ & Hc & _ & Hn).
  split; [exact Hx|]. split; [exact Hs|]. split; [exact Hc | exact Hn].
Defined.

(** X3: a spawned child whose samples all fit under the memory ceiling and
    whose rounds fit under the time ceiling with an interval to spare (a
    tenth of a second for each round is at most [max_time]) is left alone:
    the watchdog makes exactly these rounds and signals nothing, and with
    exit status 0 and a relay that ran to the end the constructor returns,
    the peak under the ceiling.  The interval to spare and the bound on the
    rounds keep the rounding of the binary64 total out of the comparison. *)
Theorem run_within_ceilings_returns
    (tool : string) (arguments : list string) (read_stdout : option callback)
    (env : option (list (string * string))) (max_time max_mem : Z) (w : world) :
  Popen (tool_path w) = None ->
  pid_found w = true ->
  snd (relay read_stdout [] (readlines (output w))) = None ->
  0 <= max_mem ->
  Forall (within_ceiling max_mem) (polls w) ->
  (polls w = [] \/
   (accumulated (length (polls w)) <= inject_Z max_time)%Q) ->
  Z.of_nat (length (polls w)) <= 1000000 ->
  exit_status w = 0 ->
  result (RunProcess_init tool arguments read_stdout env max_time max_mem w)
    = Returned /\
  ticks (RunProcess_init tool arguments read_stdout env max_time max_mem w)
    = length (polls w) /\
  kills (RunProcess_init tool arguments read_stdout env max_time max_mem w) = [] /\
  (max_memory (object (RunProcess_init tool arguments read_stdout env
                         max_time max_mem w)) <= inject_Z max_mem)%Q.
Proof.
  intros Hs Hf Hr Hm Hq Ht _ Hx.
  assert (Hm' : (0 <= inject_Z max_mem)%Q).
  { change 0%Q with (inject_Z 0). now rewrite <- Zle_Qle. }
  destruct (@loop_quiet tool max_time max_mem (tree w) (races w) (polls w) fresh Hq)
    as (He & Hl & _ & Hp & _).
  { exact Hm'. }
  { destruct Ht as [Ht|Ht]; [now left | right].
    change (_user_time (self fresh)) with 0%Q. unfold interval. lra. }
  assert (Hth : thread tool max_time max_mem w
                = loop tool max_time max_mem (tree w) (races w) fresh (polls w)).
  { unfold thread, enforce_limits. now rewrite Hf. }
  assert (Hne : forall e, ending (thread tool max_time max_mem w) <> Threw e).
  { intros e. rewrite Hth, He. discriminate. }
  destruct (run_natural_exit tool arguments read_stdout env max_time max_mem w
              Hs Hr Hne) as [Hres Hobj].
  rewrite Hx in Hres. simpl in Hres.
  unfold ticks, kills.
  rewrite (watchdog_submitted tool arguments read_stdout env max_time max_mem w Hs).
  rewrite Hobj, Hth. unfold max_memory. simpl.
  repeat split; auto.
  - now rewrite Hp.
  - destruct (loop_peak tool max_time max_mem (tree w) (races w) (polls w) fresh)
      as (_ & [->|(p & Hin & ->)] & _).
    + exact Hm'.
    + rewrite Forall_forall in Hq. specialize (Hq p Hin).
      unfold within_ceiling in Hq. unfold sample_mb.
      destruct (sample p); [exact Hq | contradiction].
Qed.

Lemma run_within_ceilings_returns_witness :
  result (RunProcess_init "python" [] (Some silent_callback) None 1 3 printer)
    = Returned /\
  ticks (RunProcess_init "python" [] (Some silent_callback) None 1 3 printer)
    = 3%nat.
Proof.
  destruct (@run_within_ceilings_returns "python" [] (Some silent_callback) None
              1 3 printer) as (H1 & H2 & _).
  - reflexivity.
  - reflexivity.
  - vm_compute. reflexivity.
  - lia.
  - repeat constructor; unfold within_ceiling; simpl; vm_compute; discriminate.
  - right. vm_compute. discriminate.
  - simpl. lia.
  - reflexivity.
  - split; [exact H1 | exact H2].
Defined.


(** X5: a [TimeExceededError] that leaves the constructor, the relay having
    run to the end, names the tool and the ceiling, and its value is the
    polled time of the round that noticed it: above the ceiling by at most
    one interval (for a ceiling that is not negative), the peak memory being
    within its own ceiling in that round. *)
Theorem time_error_overshoots_by_an_interval
    (tool : string) (arguments : list string) (read_stdout : option callback)
    (env : option (list (string * string))) (max_time max_mem : Z) (w : world)
    (n : string) (v : Q) (c : Z) :
  0 <= max_time ->
  snd (relay read_stdout [] (readlines (output w))) = None ->
  result (RunProcess_init tool arguments read_stdout env max_time max_mem w)
    = Raised (TimeExceededError n v c) ->
  n = tool /\ c = max_time /\
  (inject_Z max_time < v)%Q /\ (v <= inject_Z max_time + interval)%Q /\
  (_max_memory_used (self (final (thread tool max_time max_mem w)))
   <= inject_Z max_mem)%Q.
Proof.
  intros Hm Hr He.
  destruct (limit_error_is_from_thread tool arguments read_stdout env
              max_time max_mem w Hr He I) as [_ Ht].
  pose proof (thread_time_overshoot tool max_mem w Hm) as Ho.
  destruct (thread_threw tool max_time max_mem w Ht) as [[E _]|[E Hv]];
    [discriminate|].
  injection E as -> -> ->. repeat split; auto.
  clear - Ht. unfold thread, enforce_limits in *.
  destruct (pid_found w); [|discriminate].
  generalize dependent fresh. induction (polls w) as [|p ps IH]; intros st Ht.
  - discriminate.
  - simpl in *.
    destruct (tick tool max_time max_mem (tree w) (races w) st p)
      as [st'|how st'] eqn:E.
    + apply IH. exact Ht.
    + simpl in *. subst how. clear IH.
      destruct p as [[rss|] d]; unfold tick in E; simpl in E; [|discriminate].
      destruct (py_gt (py_max (_max_memory_used (self st)) (rss_mb rss))
                      (inject_Z max_mem)) eqn:Em.
      * match type of E with kill_then_raise _ _ ?e ?s = _ =>
          destruct (@kill_then_raise_cases (tree w) (races w) e s)
            as [(_ & tb & E' & _)|(_ & E')] end;
          rewrite E' in E; discriminate.
      * apply py_gt_false in Em.
        destruct (py_gt (_user_time (self st)) (inject_Z max_time)).
        -- match type of E with kill_then_raise _ _ ?e ?s = _ =>
             destruct (@kill_then_raise_cases (tree w) (races w) e s)
               as [(_ & tb & E' & _)|(_ & E')] end;
             rewrite E' in E; [|discriminate].
           injection E as _ <-. simpl. exact Em.
        -- discriminate.
Qed.

Lemma time_error_overshoots_by_an_interval_witness :
  (inject_Z 1
   < _user_time (self (final (thread "sleep" 1 sys_maxsize talker))))%Q /\
  (_user_time (self (final (thread "sleep" 1 sys_maxsize talker)))
   <= inject_Z 1 + interval)%Q.
Proof.
  destruct (@time_error_overshoots_by_an_interval "sleep" ["2"%string]
              (Some silent_callback) None 1 sys_maxsize talker "sleep"
              (_user_time (self (final (thread "sleep" 1 sys_maxsize talker)))) 1)
    as (_ & _ & H1 & H2 & _).
  - lia.
  - vm_compute. reflexivity.
  - vm_compute. reflexivity.
  - split; [exact H1 | exact H2].
Defined.

(** X6: a [MemoryExceededError] that leaves the constructor, the relay
    having run to the end, names the tool and the ceiling, and its value is
    one of the samples of the resident set, in MB, above the ceiling. *)
Theorem memory_error_reports_a_sample
    (tool : string) (arguments : list string) (read_stdout : option callback)
    (env : option (list (string * string))) (max_time max_mem : Z) (w : world)
    (n : string) (v : Q) (c : Z) :
  0 <= max_mem ->
  snd (relay read_stdout [] (readlines (output w))) = None ->
  result (RunProcess_init tool arguments read_stdout env max_time max_mem w)
    = Raised (MemoryExceededError n v c) ->
  n = tool /\ c = max_mem /\ (inject_Z max_mem < v)%Q /\
  exists p, In p (polls w) /\ v = sample_mb p.
Proof.
  intros Hm Hr He.
  destruct (limit_error_is_from_thread tool arguments read_stdout env
              max_time max_mem w Hr He I) as [_ Ht].
  destruct (thread_threw tool max_time max_mem w Ht) as [[E Hv]|[E _]];
    [|discriminate].
  injection E as -> -> ->. repeat split; auto.
  destruct (thread_peak tool max_time max_mem w) as [_ [H0|H]]; [|exact H].
  exfalso. rewrite H0 in Hv. rewrite Zle_Qle in Hm.
  change (inject_Z 0) with 0%Q in Hm. lra.
Qed.

Lemma memory_error_reports_a_sample_witness :
  exists p, In p (polls hog) /\
            _max_memory_used (self (final (thread "hog" sys_maxsize 1 hog)))
            = sample_mb p.
Proof.
  destruct (@memory_error_reports_a_sample "hog" [] None None sys_maxsize 1 hog
              "hog" (_max_memory_used (self (final (thread "hog" sys_maxsize 1 hog)))) 1)
    as (_ & _ & _ & H).
  - lia.
  - vm_compute. reflexivity.
  - vm_compute. reflexivity.
  - exact H.
Defined.

Section SignalsMore.
Variables (tool : string) (max_time max_memory : Z).
Variables (process : ptree) (race : list (list Z)).

Lemma kill_then_raise_signals (e : exn) (st : wstate) :
  match kill_then_raise process race e st with
  | Continue st' | Stop _ st' =>
      forall p, In p (signalled (procs st')) ->
                In p (signalled (procs st)) \/ In p (pids process)
  end.
Proof.
  destruct (@kill_then_raise_cases process race e st)
    as [(_ & tb & -> & _ & H)|(_ & ->)]; simpl; [exact H | now left].
Qed.

Lemma loop_signals_tree (ps : list poll) :
  forall st p,
    In p (signalled (procs (final (loop tool max_time max_memory process race st ps)))) ->
    In p (signalled (procs st)) \/ In p (pids process).
Proof.
  induction ps as [|q ps IH]; intros st p; simpl; [now left|].
  destruct (tick tool max_time max_memory process race st q) as [st'|how st'] eqn:E.
  - simpl. intros H. apply IH in H.
    apply tick_continue_inv in E as (rss & _ & _ & _ & ->). exact H.
  - simpl. destruct q as [[rss|] d]; unfold tick in E; simpl in E.
    + destruct (py_gt _ (inject_Z max_memory)).
      * match type of E with kill_then_raise _ _ ?e ?s = _ =>
          pose proof (kill_then_raise_signals e s) as H end.
        rewrite E in H. exact (H p).
      * destruct (py_gt _ (inject_Z max_time)); [|discriminate].
        match type of E with kill_then_raise _ _ ?e ?s = _ =>
          pose proof (kill_then_raise_signals e s) as H end.
        rewrite E in H. exact (H p).
    + injection E as _ <-. now left.
Qed.
End SignalsMore.

(** X7: the watchdog signals processes only when it raises a limit error,
    and then only processes of the tree of the child. *)
Theorem signals_only_for_a_limit_error
    (tool : string) (arguments : list string) (read_stdout : option callback)
    (env : option (list (string * string))) (max_time max_mem : Z) (w : world) :
  kills (RunProcess_init tool arguments read_stdout env max_time max_mem w) <> [] ->
  (exists e, ending (thread tool max_time max_mem w) = Threw e /\ limit_error e) /\
  forall p,
    In p (kills (RunProcess_init tool arguments read_stdout env max_time max_mem w)) ->
    In p (pids (tree w)).
Proof.
  unfold kills.
  destruct (watchdog (RunProcess_init tool arguments read_stdout env
                        max_time max_mem w)) as [r|] eqn:Hw; [|now intros []].
  apply watchdog_is_thread in Hw as [_ ->]. intros Hk. split.
  - pose proof (thread_ending tool max_time max_mem w) as Ht.
    destruct (ending (thread tool max_time max_mem w)) as [| |e|] eqn:E;
      try contradiction.
    + exfalso. apply Hk. rewrite thread_no_kill; [reflexivity|].
      intros e. rewrite E. discriminate.
    + exfalso. apply Hk. rewrite thread_no_kill; [reflexivity|].
      intros e. rewrite E. discriminate.
    + exists e. split; [reflexivity | apply Ht].
  - intros p. unfold thread, enforce_limits. destruct (pid_found w).
    + intros H. apply loop_signals_tree in H as [H|H]; [destruct H | exact H].
    + intros [].
Qed.

Lemma sleeper_is_killed :
  kills (RunProcess_init "sleep" ["2"%string] None None 1 sys_maxsize sleeper)
    = [100; 102; 101].
Proof. vm_compute. reflexivity. Qed.

Lemma sleeper_kills_some :
  kills (RunProcess_init "sleep" ["2"%string] None None 1 sys_maxsize sleeper)
    <> [].
Proof. rewrite sleeper_is_killed. discriminate. Qed.

Lemma signals_only_for_a_limit_error_witness :
  exists e, ending (thread "sleep" 1 sys_maxsize sleeper) = Threw e /\ limit_error e.
Proof.
  destruct (@signals_only_for_a_limit_error "sleep" ["2"%string] None None
              1 sys_maxsize sleeper) as [H _].
  - exact sleeper_kills_some.
  - exact H.
Defined.

(** X8: the [max_memory] of an object that the constructor returns is 0 or
    one of the samples of the resident set, in MB, and, when the watchdog
    stopped on the return code, it is above every sample: the maximum of
    what the watchdog read. *)
Theorem max_memory_is_the_largest_sample
    (tool : string) (arguments : list string) (read_stdout : option callback)
    (env : option (list (string * string))) (max_time max_mem : Z) (w : world) :
  result (RunProcess_init tool arguments read_stdout env max_time max_mem w)
    = Returned ->
  (max_memory (object (RunProcess_init tool arguments read_stdout env
                         max_time max_mem w)) = 0%Q \/
   exists p, In p (polls w) /\
     max_memory (object (RunProcess_init tool arguments read_stdout env
                           max_time max_mem w)) = sample_mb p) /\
  (ending (thread tool max_time max_mem w) = LoopExit ->
   Forall (fun p => sample_mb p
                    <= max_memory (object (RunProcess_init tool arguments
                                             read_stdout env max_time max_mem w)))%Q
          (polls w)).
Proof.
  intros H. apply run_returned_inv in H as (_ & _ & _ & _ & ->).
  unfold max_memory. simpl.
  destruct (thread_peak tool max_time max_mem w) as [Hall Heq].
  split; [exact Heq | exact Hall].
Qed.

Lemma max_memory_is_the_largest_sample_witness :
  max_memory (object (RunProcess_init "python" [] None None
                        sys_maxsize sys_maxsize printer)) = 0%Q \/
  exists p, In p (polls printer) /\
    max_memory (object (RunProcess_init "python" [] None None
                          sys_maxsize sys_maxsize printer)) = sample_mb p.
Proof.
  apply (@max_memory_is_the_largest_sample "python" [] None None
           sys_maxsize sys_maxsize printer).
  vm_compute. reflexivity.
Defined.

(** X9: a child that is gone when the watchdog looks for it, or when it
    takes its first sample, is no error: the thread ends quietly, nothing is
    signalled, the constructor goes by the exit status alone and a returned
    object reports a peak of 0. *)
Theorem vanished_child_is_no_error
    (tool : string) (arguments : list string) (read_stdout : option callback)
    (env : option (list (string * string))) (max_time max_mem : Z) (w : world) :
  Popen (tool_path w) = None ->
  snd (relay read_stdout [] (readlines (output w))) = None ->
  (pid_found w = false \/
   exists d rest, polls w = mkPoll ProcessGone d :: rest) ->
  ending (thread tool max_time max_mem w) = Caught /\
  result (RunProcess_init tool arguments read_stdout env max_time max_mem w)
    = (if exit_status w =? 0 then Returned
       else Raised (ToolRuntimeError tool arguments (exit_status w))) /\
  max_memory (object (RunProcess_init tool arguments read_stdout env
                        max_time max_mem w)) = 0%Q /\
  kills (RunProcess_init tool arguments read_stdout env max_time max_mem w) = [].
Proof.
  intros Hs Hr Hgone.
  assert (Hth : ending (thread tool max_time max_mem w) = Caught /\
                final (thread tool max_time max_mem w) = fresh).
  { unfold thread, enforce_limits.
    destruct Hgone as [->|(d & rest & ->)]; [now split|].
    destruct (pid_found w); now split. }
  destruct Hth as [He Hf].
  destruct (run_natural_exit tool arguments read_stdout env max_time max_mem w
              Hs Hr) as [Hres Hobj].
  { intros e. rewrite He. discriminate. }
  unfold kills.
  rewrite (watchdog_submitted tool arguments read_stdout env max_time max_mem w Hs).
  rewrite Hobj, Hf. repeat split; auto.
Qed.

Lemma vanished_child_is_no_error_witness :
  result (RunProcess_init "true" [] None None sys_maxsize sys_maxsize early)
    = Returned /\
  max_memory (object (RunProcess_init "true" [] None None
                        sys_maxsize sys_maxsize early)) = 0%Q.
Proof.
  destruct (@vanished_child_is_no_error "true" [] None None
              sys_maxsize sys_maxsize early) as (_ & H1 & H2 & _).
  - reflexivity.
  - reflexivity.
  - now left.
  - split; [exact H1 | exact H2].
Defined.


(** ** More on the relay *)

Lemma append_nil_r (s : string) : (s ++ EmptyString)%string = s.
Proof. induction s as [|c s IH]; simpl; [reflexivity | now rewrite IH]. Qed.

Lemma append_assoc (a b c : string) :
  ((a ++ b) ++ c = a ++ (b ++ c))%string.
Proof. induction a as [|x a IH]; simpl; [reflexivity | now rewrite IH]. Qed.

Lemma rstrip_newline_free (s : string) :
  newline_free s = true -> rstrip s = s.
Proof.
  induction s as [|c s IH]; simpl; [reflexivity|].
  intros H. apply andb_prop in H as [Hc Hs]. apply negb_true_iff in Hc.
  rewrite IH by exact Hs. destruct s; [now rewrite Hc | reflexivity].
Qed.

Lemma newline_free_snoc (s : string) (c : ascii) :
  newline_free s = true -> Ascii.eqb c newline = false ->
  newline_free (s ++ String c EmptyString) = true.
Proof.
  induction s as [|a s IH]; simpl; intros Hs Hc.
  - now rewrite Hc.
  - apply andb_prop in Hs as [Ha Hs]. rewrite Ha. simpl. now apply IH.
Qed.

Lemma ends_with_newline_free (s : string) :
  newline_free s = true -> ends_with_newline s = false.
Proof.
  induction s as [|c s IH]; simpl; [reflexivity|].
  intros H. apply andb_prop in H as [Hc Hs]. apply negb_true_iff in Hc.
  destruct s; [exact Hc | now apply IH].
Qed.

Lemma ends_with_newline_app (a : string) (c : ascii) (b : string) :
  ends_with_newline (a ++ String c b) = ends_with_newline (String c b).
Proof.
  induction a as [|x a IH]; [reflexivity|].
  change ((String x a ++ String c b)%string) with (String x (a ++ String c b)%string).
  destruct (a ++ String c b)%string eqn:E.
  - destruct a; discriminate.
  - change (ends_with_newline (String x (String a0 s)))
      with (ends_with_newline (String a0 s)).
    exact IH.
Qed.

Lemma terminated_after_newline (cur rest : string) :
  terminated (cur ++ String newline rest)
    = (cur ++ String newline (terminated rest))%string.
Proof.
  unfold terminated at 1.
  destruct (cur ++ String newline rest)%string eqn:E; [destruct cur; discriminate|].
  rewrite <- E. clear E. rewrite ends_with_newline_app.
  destruct rest as [|r rest].
  - simpl. reflexivity.
  - change (ends_with_newline (String newline (String r rest)))
      with (ends_with_newline (String r rest)).
    unfold terminated.
    destruct (ends_with_newline (String r rest)); [reflexivity|].
    now rewrite append_assoc.
Qed.

(** The arguments of the calls, each closed by a newline, are the text of
    the stream with its last line closed. *)
Lemma readlines_rebuild (s : string) :
  forall cur,
    newline_free cur = true ->
    written (map rstrip (readlines_from cur s)) = terminated (cur ++ s).
Proof.
  induction s as [|c s IH]; intros cur Hcur.
  - rewrite append_nil_r. destruct cur as [|a cur]; [reflexivity|].
    change (readlines_from (String a cur) EmptyString) with [String a cur].
    change (map rstrip [String a cur]) with [rstrip (String a cur)].
    rewrite (rstrip_newline_free _ Hcur).
    unfold terminated. rewrite (ends_with_newline_free _ Hcur). reflexivity.
  - simpl readlines_from. destruct (Ascii.eqb c newline) eqn:Ec.
    + apply Ascii.eqb_eq in Ec. subst c. simpl map. rewrite rstrip_line by exact Hcur.
      simpl written. rewrite (IH EmptyString) by reflexivity. simpl.
      now rewrite terminated_after_newline.
    + rewrite IH by now apply newline_free_snoc.
      now rewrite append_shift.
Qed.

Lemma readlines_newline_free (s : string) :
  forall cur,
    newline_free s = true ->
    readlines_from cur s
      = match (cur ++ s)%string with EmptyString => [] | t => [t] end.
Proof.
  induction s as [|c s IH]; intros cur H.
  - rewrite append_nil_r. destruct cur; reflexivity.
  - simpl in *. apply andb_prop in H as [Hc Hs]. apply negb_true_iff in Hc.
    rewrite Hc, IH by exact Hs. now rewrite append_shift.
Qed.

(** X10: with a callback that returns from every invocation, the arguments
    it receives, each followed by a newline, give back the text of the
    stream, a last line without newline being handed over like the others.
    An empty stream means no invocation, and a text without any newline
    means one invocation with the whole text. *)
Theorem calls_rebuild_the_output
    (tool : string) (arguments : list string) (f : callback)
    (env : option (list (string * string))) (max_time max_mem : Z) (w : world) :
  Popen (tool_path w) = None ->
  (forall seen l, f seen l = None) ->
  written (calls (RunProcess_init tool arguments (Some f) env max_time max_mem w))
    = terminated (output w) /\
  (output w = EmptyString ->
   calls (RunProcess_init tool arguments (Some f) env max_time max_mem w) = []) /\
  (newline_free (output w) = true -> output w <> EmptyString ->
   calls (RunProcess_init tool arguments (Some f) env max_time max_mem w)
     = [output w]).
Proof.
  intros Hs Hf.
  assert (E : calls (RunProcess_init tool arguments (Some f) env max_time max_mem w)
              = map rstrip (readlines (output w))).
  { rewrite calls_are_relayed by exact Hs.
    rewrite relay_calls; [reflexivity|]. intros; apply Hf. }
  rewrite E. unfold readlines. split; [|split].
  - now rewrite readlines_rebuild.
  - intros ->. reflexivity.
  - intros Hn Hne. rewrite readlines_newline_free by exact Hn.
    change (EmptyString ++ output w)%string with (output w).
    destruct (output w) as [|a s]; [now elim Hne|].
    change (map rstrip [String a s]) with [rstrip (String a s)].
    now rewrite (rstrip_newline_free _ Hn).
Qed.

Lemma calls_rebuild_the_output_witness :
  calls (RunProcess_init "python" [] (Some silent_callback) None
           sys_maxsize sys_maxsize counter) = ["0123456789"%string].
Proof.
  destruct (@calls_rebuild_the_output "python" [] silent_callback None
              sys_maxsize sys_maxsize counter) as (_ & _ & H).
  - reflexivity.
  - reflexivity.
  - apply H; [reflexivity | discriminate].
Defined.

(** ** More on [kill_all] *)

Lemma kill_each_no_race (children : list Z) :
  forall tb,
    exited tb = [] ->
    kill_each children [] tb = inl (mkTable (rev children ++ signalled tb) []).
Proof.
  induction children as [|p rest IH]; intros [sig ex] H; simpl in *; subst ex.
  - reflexivity.
  - unfold kill, vanish. simpl. rewrite IH by reflexivity. simpl.
    now rewrite <- app_assoc.
Qed.

(** Children that have all left are passed over: each [NoSuchProcess] is
    swallowed and the loop goes on with what follows them. *)
Lemma kill_each_gone (children : list Z) :
  forall rest race tb,
    (forall p, In p children -> In p (exited tb)) ->
    exists race1 tb1,
      kill_each (children ++ rest) race tb = kill_each rest race1 tb1 /\
      signalled tb1 = signalled tb /\
      (forall p, In p (exited tb) -> In p (exited tb1)) /\
      (forall p, In p (hd [] race1 ++ exited tb1) ->
                 In p (concat race) \/ In p (exited tb)).
Proof.
  induction children as [|c cs IH]; intros rest race tb H.
  - exists race, tb. simpl. repeat split; auto.
    intros p Hp. apply in_app_or in Hp as [Hp|Hp]; [left | now right].
    destruct race; simpl in *; [contradiction | apply in_or_app; now left].
  - simpl. unfold kill. simpl.
    assert (E : mem c (hd [] race ++ exited tb) = true).
    { apply mem_In, in_or_app. right. apply H. now left. }
    rewrite E.
    destruct (IH rest (tl race) (vanish (hd [] race) tb))
      as (race1 & tb1 & -> & Hs & He & Hc).
    + intros p Hp. simpl. apply in_or_app. right. apply H. now right.
    + exists race1, tb1. split; [reflexivity|]. split; [exact Hs|]. split.
      * intros p Hp. apply He. simpl. apply in_or_app. now right.
      * intros p Hp. apply Hc in Hp as [Hp|Hp].
        -- left. destruct race; simpl in *; [contradiction | apply in_or_app; now right].
        -- simpl in Hp. apply in_app_or in Hp as [Hp|Hp]; [left | now right].
           destruct race; simpl in *; [contradiction | apply in_or_app; now left].
Qed.

(** X11: when no process of the tree has left and none leaves during the
    loop, [kill_all] signals every process of the tree once, in the order of
    its list: the children of the root first, as [children] lists them
    before any grandchild, and the root last; it returns with exactly these
    processes gone. *)
Theorem kill_all_signals_root_last (process : ptree) (tb : ptable) :
  exited tb = [] ->
  kill_all process [] tb
    = KillReturned
        (mkTable (root_pid process :: rev (children_recursive process)
                    ++ signalled tb)
                 (children_recursive process ++ [root_pid process])) /\
  exists grandchildren,
    children_recursive process
      = map root_pid (match process with PNode _ ks => ks end) ++ grandchildren.
Proof.
  intros H. split.
  - unfold kill_all. simpl. rewrite H. simpl.
    rewrite kill_each_no_race by exact H. simpl.
    destruct (wait_procs_spec (children_recursive process ++ [root_pid process])
                (mkTable (rev (children_recursive process ++ [root_pid process])
                            ++ signalled tb) [])) as (gone & ->).
    + intros p Hp. left. simpl. apply in_or_app. left. now apply in_rev in Hp.
    + simpl. now rewrite rev_app_distr, app_nil_r.
  - destruct process as [r ks]. eexists. reflexivity.
Qed.

Lemma kill_all_signals_root_last_witness :
  kill_all family [] no_procs
    = KillReturned (mkTable [100; 103; 102; 101] [101; 102; 103; 100]) /\
  exists grandchildren, children_recursive family = [101; 102] ++ grandchildren.
Proof.
  exact (@kill_all_signals_root_last family no_procs eq_refl).
Defined.

(** X12: on a root that stays until it is signalled and whose descendants
    have all left already, [kill_all] swallows the [NoSuchProcess] of every
    descendant, signals the root alone, passes its assertion and returns. *)
Theorem kill_all_when_descendants_have_left
    (process : ptree) (race : list (list Z)) (tb : ptable) :
  ~ In (root_pid process) (concat race ++ exited tb) ->
  (forall p, In p (children_recursive process) -> In p (exited tb)) ->
  exists tb',
    kill_all process race tb = KillReturned tb' /\
    signalled tb' = root_pid process :: signalled tb /\
    tree_dead process tb'.
Proof.
  intros Hroot Hd.
  assert (Hhd : forall p, In p (hd [] race) -> In p (concat race)).
  { intros p Hp. destruct race; simpl in *; [contradiction | apply in_or_app; now left]. }
  assert (Htl : forall p, In p (concat (tl race)) -> In p (concat race)).
  { intros p Hp. destruct race; simpl in *; [contradiction | apply in_or_app; now right]. }
  unfold kill_all.
  destruct (root_alive_dec process race tb) as [[_ E]|[H _]].
  2:{ exfalso. apply H. unfold root_alive. intros Hin. apply Hroot.
      apply in_app_or in Hin as [Hin|Hin]; apply in_or_app; auto. }
  simpl. rewrite E.
  destruct (kill_each_gone (children_recursive process) [root_pid process]
              (tl race) (vanish (hd [] race) tb))
    as (race1 & tb1 & -> & Hs & He & Hc).
  { intros p Hp. simpl. apply in_or_app. right. now apply Hd. }
  simpl. unfold kill. simpl.
  assert (E1 : mem (root_pid process) (hd [] race1 ++ exited tb1) = false).
  { apply not_true_iff_false. rewrite mem_In. intros Hin. apply Hroot.
    apply Hc in Hin as [Hin|Hin]; apply in_or_app.
    - left. now apply Htl.
    - simpl in Hin. apply in_app_or in Hin as [Hin|Hin]; [left; now apply Hhd | now right]. }
  rewrite E1.
  destruct (wait_procs_spec (children_recursive process ++ [root_pid process])
              (mkTable (root_pid process :: signalled tb1)
                       (hd [] race1 ++ exited tb1))) as (gone & ->).
  { intros p Hp. simpl. apply in_app_or in Hp as [Hp|[<-|[]]].
    - right. apply in_or_app. right. apply He. simpl. apply in_or_app. right.
      now apply Hd.
    - left. now left. }
  eexists. split; [reflexivity|]. split; [simpl; now rewrite Hs|].
  intros p Hp. apply status_Gone. simpl. apply in_or_app. left.
  apply pids_root_children in Hp. apply in_or_app.
  destruct Hp as [->|Hp]; [right; now left | now left].
Qed.

Lemma kill_all_when_descendants_have_left_witness :
  exists tb',
    kill_all family [[103]; [102]] (mkTable [] [101; 102; 103])
      = KillReturned tb' /\
    signalled tb' = [100] /\
    tree_dead family tb'.
Proof.
  apply (@kill_all_when_descendants_have_left family [[103]; [102]]
           (mkTable [] [101; 102; 103])).
  - simpl. intuition discriminate.
  - simpl. intuition.
Defined.

(** ** More on the older variant *)

Section LegacyMore.
Variables (tool : string) (arguments : list string).
Variables (env : option (list (string * string))).
Variables (max_time max_mem : Z) (w : world).

Local Abbreviation old := (Legacy.RunProcess_init tool arguments env max_time max_mem w).
Local Abbreviation wd := (thread tool max_time max_mem w).

Lemma legacy_reports_watchdog (e : exn) :
  Popen (tool_path w) = None ->
  ending wd = Threw e ->
  result old = Raised e.
Proof.
  intros Hs He. unfold Legacy.RunProcess_init. rewrite Hs, He. simpl.
  f_equal. apply except_limit_error.
  pose proof (thread_ending tool max_time max_mem w) as H. rewrite He in H. apply H.
Qed.

Lemma legacy_natural_exit :
  Popen (tool_path w) = None ->
  (forall e, ending wd <> Threw e) ->
  result old =
    (if exit_status w =? 0 then Returned
     else Raised (ToolRuntimeError tool arguments (exit_status w))) /\
  object old = set_returncode (exit_status w) (set_stdout (output w) (self (final wd))) /\
  watchdog old = Some wd.
Proof.
  intros Hs He. unfold Legacy.RunProcess_init. rewrite Hs.
  pose proof (thread_ending tool max_time max_mem w) as H.
  destruct (ending wd) eqn:E; try contradiction;
    try (exfalso; eapply He; reflexivity);
    destruct (exit_status w =? 0); repeat split; reflexivity.
Qed.
End LegacyMore.



(** X14: the test of the older variant: with [max_time=1] and a child
    that the watchdog still finds running at its twelfth round, its root
    still there when the kill lists the descendants, the older constructor
    raises [TimeExceededError] in that round with a value of at least 1, the
    tree dead, whatever the exit status of the killed child. *)
Theorem legacy_test_timeout
    (tool : string) (arguments : list string)
    (env : option (list (string * string))) (max_mem : Z) (w : world) :
  Popen (tool_path w) = None ->
  pid_found w = true ->
  0 <= max_mem ->
  (12 <= length (polls w))%nat ->
  Forall (within_ceiling max_mem) (firstn 12 (polls w)) ->
  root_present w ->
  exists v,
    result (Legacy.RunProcess_init tool arguments env 1 max_mem w)
      = Raised (TimeExceededError tool v 1) /\
    (1 <= v)%Q /\
    ticks (Legacy.RunProcess_init tool arguments env 1 max_mem w) = 12%nat /\
    tree_dead (tree w) (procs (final (thread tool 1 max_mem w))).
Proof.
  intros Hs Hf Hm Hlen Hq Hroot.
  destruct (@loop_raises_after tool 1 max_mem (tree w) (races w) 11
              (polls w) fresh Hlen Hq) as (v & E & Hv & Hl & Hd).
  - simpl. change 0%Q with (inject_Z 0). now rewrite <- Zle_Qle.
  - right. vm_compute. discriminate.
  - vm_compute. reflexivity.
  - exact Hroot.
  - assert (Hth : thread tool 1 max_mem w
                  = loop tool 1 max_mem (tree w) (races w) fresh (polls w)).
    { unfold thread, enforce_limits. now rewrite Hf. }
    exists v. split; [|split; [|split]].
    + apply legacy_reports_watchdog; [exact Hs | now rewrite Hth].
    + rewrite Hv. vm_compute. discriminate.
    + unfold ticks, Legacy.RunProcess_init. rewrite Hs, Hth, E. simpl. exact Hl.
    + now rewrite Hth.
Qed.

Lemma legacy_test_timeout_witness :
  exists v,
    result (Legacy.RunProcess_init "python" ["-c"; "import time; time.sleep(2)"]%string
              None 1 sys_maxsize sleeper)
      = Raised (TimeExceededError "python" v 1) /\
    (1 <= v)%Q /\
    ticks (Legacy.RunProcess_init "python" ["-c"; "import time; time.sleep(2)"]%string
             None 1 sys_maxsize sleeper) = 12%nat /\
    tree_dead (tree sleeper) (procs (final (thread "python" 1 sys_maxsize sleeper))).
Proof.
  apply (@legacy_test_timeout "python" ["-c"; "import time; time.sleep(2)"]%string
           None sys_maxsize sleeper).
  - reflexivity.
  - reflexivity.
  - vm_compute. discriminate.
  - simpl. lia.
  - exact sleeper_within_ceiling.
  - exact sleeper_root_present.
Defined.

(** X15: what the older constructor does tells what happened.  It returns
    only for a spawned tool that exited with status 0, the watchdog having
    raised nothing, and the object then holds the output and the return code
    0.  [ToolRuntimeError] carries the tool, the arguments and the exit
    status, which is not zero.  [ToolNotFoundError] names the tool and comes
    from a [FileNotFoundError] of the spawn: the file is missing, or it is a
    script whose interpreter is.  A limit error is the one the watchdog
    raised, after the tree was killed, and carries the tool, a value above
    the ceiling and the ceiling. *)
Theorem legacy_outcomes_classified
    (tool : string) (arguments : list string)
    (env : option (list (string * string))) (max_time max_mem : Z) (w : world) :
  (result (Legacy.RunProcess_init tool arguments env max_time max_mem w) = Returned ->
   Popen (tool_path w) = None /\ exit_status w = 0 /\
   (forall e, ending (thread tool max_time max_mem w) <> Threw e) /\
   returncode (object (Legacy.RunProcess_init tool arguments env
                         max_time max_mem w)) = 0 /\
   stdout (object (Legacy.RunProcess_init tool arguments env
                     max_time max_mem w)) = output w) /\
  (forall t a c,
     result (Legacy.RunProcess_init tool arguments env max_time max_mem w)
       = Raised (ToolRuntimeError t a c) ->
     Popen (tool_path w) = None /\
     t = tool /\ a = arguments /\ c = exit_status w /\ c <> 0 /\
     forall e, ending (thread tool max_time max_mem w) <> Threw e) /\
  (forall n,
     result (Legacy.RunProcess_init tool arguments env max_time max_mem w)
       = Raised (ToolNotFoundError n) ->
     n = tool /\
     (tool_path w = Missing \/ tool_path w = NoInterpreter) /\
     watchdog (Legacy.RunProcess_init tool arguments env max_time max_mem w) = None) /\
  (forall e,
     result (Legacy.RunProcess_init tool arguments env max_time max_mem w)
       = Raised e ->
     limit_error e ->
     Popen (tool_path w) = None /\
     ending (thread tool max_time max_mem w) = Threw e /\
     tree_dead (tree w) (procs (final (thread tool max_time max_mem w))) /\
     match e with
     | TimeExceededError n v c =>
         n = tool /\ c = max_time /\ (inject_Z max_time < v)%Q
     | MemoryExceededError n v c =>
         n = tool /\ c = max_mem /\ (inject_Z max_mem < v)%Q
     | _ => True
     end).
Proof.
  destruct (Popen (tool_path w)) as [e0|] eqn:Hs.
  - assert (Hx : result (Legacy.RunProcess_init tool arguments env max_time max_mem w)
                 = Raised (except_FileNotFoundError tool e0) /\
                 watchdog (Legacy.RunProcess_init tool arguments env
                             max_time max_mem w) = None).
    { unfold Legacy.RunProcess_init. rewrite Hs. now split. }
    destruct Hx as [Hx Hw]. rewrite Hx, Hw.
    split; [discriminate|].
    split; [intros t a c H; destruct (tool_path w); simpl in Hs; try discriminate;
            injection Hs as <-; discriminate|].
    split.
    + intros n H. destruct (tool_path w); simpl in Hs; try discriminate;
        injection Hs as <-; simpl in H; try discriminate;
        injection H as <-; auto.
    + intros e H Hl. destruct (tool_path w); simpl in Hs; try discriminate;
        injection Hs as <-; simpl in H; injection H as <-; contradiction.
  - pose proof (thread_ending tool max_time max_mem w) as Ht.
    assert (Hnat : (forall e, ending (thread tool max_time max_mem w) <> Threw e) ->
                   result (Legacy.RunProcess_init tool arguments env
                             max_time max_mem w)
                   = (if exit_status w =? 0 then Returned
                      else Raised (ToolRuntimeError tool arguments (exit_status w))) /\
                   object (Legacy.RunProcess_init tool arguments env
                             max_time max_mem w)
                   = set_returncode (exit_status w)
                       (set_stdout (output w)
                          (self (final (thread tool max_time max_mem w))))).
    { intros H.
      destruct (legacy_natural_exit tool arguments env max_time max_mem w Hs H)
        as (H1 & H2 & _). now split. }
    destruct (ending (thread tool max_time max_mem w)) as [| |e1|] eqn:E;
      try contradiction.
    + destruct Hnat as [-> ->]; [intros e; discriminate|].
      destruct (exit_status w =? 0) eqn:Ex.
      * apply Z.eqb_eq in Ex.
        split; [intros _; simpl; repeat split; auto; intros e; discriminate|].
        split; [discriminate|]. split; discriminate.
      * apply Z.eqb_neq in Ex.
        split; [discriminate|].
        split; [intros t a c [= <- <- <-]; repeat split; auto; intros e; discriminate|].
        split; [discriminate|].
        intros e [= <-] [].
    + destruct Hnat as [-> ->]; [intros e; discriminate|].
      destruct (exit_status w =? 0) eqn:Ex.
      * apply Z.eqb_eq in Ex.
        split; [intros _; simpl; repeat split; auto; intros e; discriminate|].
        split; [discriminate|]. split; discriminate.
      * apply Z.eqb_neq in Ex.
        split; [discriminate|].
        split; [intros t a c [= <- <- <-]; repeat split; auto; intros e; discriminate|].
        split; [discriminate|].
        intros e [= <-] [].
    + destruct Ht as [Hl Hd].
      rewrite (legacy_reports_watchdog tool arguments env max_time max_mem w Hs E).
      split; [discriminate|].
      split; [intros t a c [= ->]; contradiction|].
      split; [intros n [= ->]; contradiction|].
      intros e [= <-] _. repeat split; auto.
      destruct (thread_threw tool max_time max_mem w E) as [[-> H]|[-> H]];
        repeat split; auto.
Qed.

Lemma legacy_outcomes_classified_witness :
  result (Legacy.RunProcess_init "tool" ["-x"%string] None
            sys_maxsize sys_maxsize crasher)
    = Raised (ToolRuntimeError "tool" ["-x"%string] 3) /\
  Popen (tool_path crasher) = None /\
  3 = exit_status crasher /\
  forall e, ending (thread "tool" sys_maxsize sys_maxsize crasher) <> Threw e.
Proof.
  assert (Hx : result (Legacy.RunProcess_init "tool" ["-x"%string] None
                         sys_maxsize sys_maxsize crasher)
               = Raised (ToolRuntimeError "tool" ["-x"%string] 3))
    by (vm_compute; reflexivity).
  destruct (proj1 (proj2 (@legacy_outcomes_classified "tool" ["-x"%string] None
                            sys_maxsize sys_maxsize crasher))
              "tool"%string ["-x"%string] 3 Hx) as (Hs & _ & _ & Hc & _ & Hn).
  split; [exact Hx|]. split; [exact Hs|]. split; [exact Hc | exact Hn].
Defined.

(** ** More on the errors of the callback *)

(** X16: an exception of the callback is what leaves the constructor, also
    when the watchdog has raised a limit error meanwhile: that error stays
    in the future, which is never asked for its result.  Only
    [FileNotFoundError] is renamed on the way out. *)
Theorem callback_error_hides_limit_error
    (tool : string) (arguments : list string) (f : callback)
    (env : option (list (string * string))) (max_time max_mem : Z) (w : world)
    (e e' : exn) :
  Popen (tool_path w) = None ->
  snd (relay (Some f) [] (readlines (output w))) = Some e ->
  ending (thread tool max_time max_mem w) = Threw e' ->
  e <> FileNotFoundError ->
  result (RunProcess_init tool arguments (Some f) env max_time max_mem w)
    = Raised e /\
  limit_error e' /\
  tree_dead (tree w) (procs (final (thread tool max_time max_mem w))).
Proof.
  intros Hs Hr He Hne.
  pose proof (thread_ending tool max_time max_mem w) as Ht. rewrite He in Ht.
  split; [|exact Ht].
  rewrite (callback_error_reported tool arguments f env max_time max_mem w Hs Hr)
    by (rewrite He; discriminate).
  destruct e; try reflexivity. now elim Hne.
Qed.

Lemma callback_error_hides_limit_error_witness :
  result (RunProcess_init "sleep" ["2"%string] (Some failing_callback) None
            1 sys_maxsize talker)
    = Raised (OtherError "ValueError").
Proof.
  destruct (@callback_error_hides_limit_error "sleep" ["2"%string] failing_callback
              None 1 sys_maxsize talker (OtherError "ValueError")
              (TimeExceededError "sleep"
                 (_user_time (self (final (thread "sleep" 1 sys_maxsize talker)))) 1))
    as (H & _).
  - reflexivity.
  - vm_compute. reflexivity.
  - vm_compute. reflexivity.
  - discriminate.
  - exact H.
Defined.
